(** * streamer.py: acquisition, encoding plan and supervised streaming loop

    A shallow embedding of [src/streamer.py] (class [YouTubeStreamer] and
    [main]).  A Python text is modelled by the [string] of the bytes of its
    UTF-8 encoding (every literal and character class of the source is
    ASCII, so searching and matching on the bytes gives what the source
    gets on the characters), Python integers as [Z], the filesystem, the
    network and the external tools as an explicit state and an oracle
    record, and Python exceptions as an outcome of every effectful step.
    [print_status] only writes to the console; of its calls the model keeps
    the two whose argument can fail to be computed from a text the program
    was given (the size of the announced length in MB, and the output
    resolution). *)

From Stdlib Require Import ZArith List String Ascii Bool Lia.
From Stdlib Require Import Numbers.DecimalString.
Import ListNotations.

Local Open Scope string_scope.
Local Open Scope Z_scope.

(** ** Exceptions and outcomes *)

(** The exceptions the program can meet.  All but [KeyboardInterrupt] are
    subclasses of Python's [Exception]. *)
Inductive exn : Type :=
| ValueError
| OverflowError
| ZeroDivisionError
| TypeError
| OSError
| RequestException
| SubprocessError
| KeyboardInterrupt.

(** [isinstance(e, Exception)] *)
Definition is_Exception (e : exn) : bool :=
  match e with
  | KeyboardInterrupt => false
  | _ => true
  end.

(** Outcome of a call: a value or a raised exception. *)
Inductive res (A : Type) : Type :=
| Ret (a : A)
| Raise (e : exn).
Arguments Ret {A} a.
Arguments Raise {A} e.

(** ** Python built-ins on [str] and [int] *)

Module Py.

(** [s.startswith(p)] *)
Fixpoint startswith (s p : string) {struct p} : bool :=
  match p with
  | EmptyString => true
  | String c p' =>
      match s with
      | EmptyString => false
      | String d s' => Ascii.eqb c d && startswith s' p'
      end
  end.

(** [needle in s] on strings *)
Fixpoint contains (needle s : string) : bool :=
  startswith s needle
  || match s with
     | EmptyString => false
     | String _ s' => contains needle s'
     end.

(** [s.replace(c, '')] for a one-character [c] *)
Fixpoint remove_char (c : ascii) (s : string) : string :=
  match s with
  | EmptyString => EmptyString
  | String d s' =>
      if Ascii.eqb d c then remove_char c s' else String d (remove_char c s')
  end.

(** [not s] for a value that is [None] or a string *)
Definition falsy (s : option string) : bool :=
  match s with
  | None => true
  | Some EmptyString => true
  | Some _ => false
  end.

Definition code (c : ascii) : Z := Z.of_nat (nat_of_ascii c).

Definition is_digit (c : ascii) : bool := (48 <=? code c) && (code c <=? 57).

(** The whitespace [int()] skips around an ASCII number: tab, line feed,
    vertical tab, form feed, carriage return and space. *)
Definition is_space (c : ascii) : bool :=
  ((9 <=? code c) && (code c <=? 13)) || (code c =? 32).

(** The code points from 127 on that [int()] reads as a space. *)
Definition unicode_spaces : list Z :=
  [ 133; 160; 5760; 8192; 8193; 8194; 8195; 8196; 8197; 8198; 8199; 8200;
    8201; 8202; 8232; 8233; 8239; 8287; 12288 ].

(** The code points of the digit zero of every script in which [int()]
    reads decimal digits (Unicode 14.0); the nine code points after each
    are its digits one to nine. *)
Definition decimal_zeros : list Z :=
  [ 1632; 1776; 1984; 2406; 2534; 2662; 2790; 2918; 3046; 3174; 3302; 3430;
    3558; 3664; 3792; 3872; 4160; 4240; 6112; 6160; 6470; 6608; 6784; 6800;
    6992; 7088; 7232; 7248; 42528; 43216; 43264; 43472; 43504; 43600; 44016;
    65296; 66720; 68912; 69734; 69872; 69942; 70096; 70384; 70736; 70864;
    71248; 71360; 71472; 71904; 72016; 72784; 73040; 73120; 92768; 92864;
    93008; 120782; 120792; 120802; 120812; 120822; 123200; 123632; 125264;
    130032 ].

Fixpoint decimal_of (zeros : list Z) (cp : Z) : option Z :=
  match zeros with
  | [] => None
  | z :: zeros' =>
      if (z <=? cp) && (cp <? z + 10) then Some (cp - z)
      else decimal_of zeros' cp
  end.

(** What [int()] makes of a code point from 127 on before it parses: a
    space, an ASCII digit, or nothing it can read. *)
Definition to_ascii_char (cp : Z) : option ascii :=
  if existsb (Z.eqb cp) unicode_spaces then Some " "%char
  else
    match decimal_of decimal_zeros cp with
    | Some d => Some (ascii_of_nat (Z.to_nat (48 + d)))
    | None => None
    end.

(** A continuation byte of UTF-8 *)
Definition is_cont (c : ascii) : bool := (128 <=? code c) && (code c <=? 191).

Definition put_char (cp : Z) (rest : option string) : option string :=
  match to_ascii_char cp, rest with
  | Some a, Some r => Some (String a r)
  | _, _ => None
  end.

(** The ASCII text [int()] parses: characters below 127 as they are, every
    other character decoded from UTF-8 and turned into a space or an ASCII
    digit; [None] when a character is neither (or the bytes are not
    UTF-8), in which case [int()] raises [ValueError]. *)
Fixpoint to_ascii (s : string) : option string :=
  match s with
  | EmptyString => Some EmptyString
  | String c rest =>
      let b := code c in
      if b <? 127 then option_map (String c) (to_ascii rest)
      else if (194 <=? b) && (b <=? 223) then
        match rest with
        | String c1 rest1 =>
            if is_cont c1
            then put_char ((b - 192) * 64 + (code c1 - 128)) (to_ascii rest1)
            else None
        | _ => None
        end
      else if (224 <=? b) && (b <=? 239) then
        match rest with
        | String c1 (String c2 rest2) =>
            let cp := (b - 224) * 4096 + (code c1 - 128) * 64 + (code c2 - 128) in
            if is_cont c1 && is_cont c2 && (2048 <=? cp)
            then put_char cp (to_ascii rest2)
            else None
        | _ => None
        end
      else if (240 <=? b) && (b <=? 244) then
        match rest with
        | String c1 (String c2 (String c3 rest3)) =>
            let cp := (b - 240) * 262144 + (code c1 - 128) * 4096
                      + (code c2 - 128) * 64 + (code c3 - 128) in
            if is_cont c1 && is_cont c2 && is_cont c3
               && (65536 <=? cp) && (cp <=? 1114111)
            then put_char cp (to_ascii rest3)
            else None
        | _ => None
        end
      else None
  end.

Fixpoint lstrip (s : string) : string :=
  match s with
  | EmptyString => EmptyString
  | String c s' => if is_space c then lstrip s' else s
  end.

Fixpoint rstrip (s : string) : string :=
  match s with
  | EmptyString => EmptyString
  | String c s' =>
      match rstrip s' with
      | EmptyString => if is_space c then EmptyString else String c EmptyString
      | r => String c r
      end
  end.

Definition strip (s : string) : string := rstrip (lstrip s).

(** Decimal digits, single underscores allowed between two digits.
    [after_digit] tells whether the previous character was a digit. *)
Fixpoint digits (s : string) (acc : Z) (after_digit : bool) : option Z :=
  match s with
  | EmptyString => if after_digit then Some acc else None
  | String c s' =>
      if is_digit c then digits s' (10 * acc + (code c - 48)) true
      else if Ascii.eqb c "_" && after_digit then digits s' acc false
      else None
  end.

(** Number of digit characters of [s]. *)
Fixpoint count_digits (s : string) : Z :=
  match s with
  | EmptyString => 0
  | String c s' => (if is_digit c then 1 else 0) + count_digits s'
  end.

(** [sys.get_int_max_str_digits()], the interpreter's default *)
Definition max_str_digits : Z := 4300.

(** [int(s)] for a string [s], base 10: surrounding whitespace, an optional
    sign, then digits; [ValueError] for anything else, and for more digits
    than the interpreter converts. *)
Definition int_of_str (s : string) : res Z :=
  match to_ascii s with
  | None => Raise ValueError
  | Some a =>
      let t := strip a in
      let r :=
        match t with
        | String "-" u => option_map Z.opp (digits u 0 false)
        | String "+" u => digits u 0 false
        | _ => digits t 0 false
        end in
      match r with
      | Some z =>
          if max_str_digits <? count_digits t then Raise ValueError else Ret z
      | None => Raise ValueError
      end
  end.

(** The decimal numeral of [z]: what [str(z)] returns when it returns. *)
Definition str_of_int (z : Z) : string := NilZero.string_of_int (Z.to_int z).

(** [str(z)], and [z] inside an f-string: the numeral of [z], [ValueError]
    when it has more digits than the interpreter converts. *)
Definition str_int (z : Z) : res string :=
  if max_str_digits <? Z.of_nat (String.length (str_of_int (Z.abs z)))
  then Raise ValueError
  else Ret (str_of_int z).

(** A finite binary64 value [mant * 2^expo]. *)
Record float : Type := mkFloat { mant : Z; expo : Z }.

(** [a / b] on integers: the quotient correctly rounded to binary64
    (ties to even), [OverflowError] when it is out of range. *)
Definition truediv (a b : Z) : res float :=
  if b =? 0 then Raise ZeroDivisionError
  else
    let sg := Z.sgn a * Z.sgn b in
    let x := Z.abs a in
    let y := Z.abs b in
    if x =? 0 then Ret (mkFloat 0 0)
    else
      let d := Z.log2 x - Z.log2 y in
      let below := if 0 <=? d then y * 2 ^ d <=? x else y <=? x * 2 ^ (- d) in
      let e0 := if below then d else d - 1 in
      let u := Z.max (e0 - 52) (-1074) in
      let num := if 0 <=? u then x else x * 2 ^ (- u) in
      let den := if 0 <=? u then y * 2 ^ u else y in
      let q := num / den in
      let r := num mod den in
      let m :=
        if 2 * r <? den then q
        else if den <? 2 * r then q + 1
        else if Z.even q then q else q + 1 in
      if (0 <=? u) && (2 ^ 1024 <=? m * 2 ^ u) then Raise OverflowError
      else Ret (mkFloat (sg * m) u).

(** [int(f)] for a float: truncation towards zero *)
Definition int_of_float (f : float) : Z :=
  if 0 <=? expo f then mant f * 2 ^ expo f
  else Z.quot (mant f) (2 ^ (- expo f)).

End Py.

(** ** Regular expressions *)

(** Every regular expression of the source has the shape
    [literal(class+)]: a literal text followed by one capturing group, a
    greedy non-empty run of characters of one class. *)

Module Re.

(** The character class [[a-zA-Z0-9_-]] *)
Definition is_id_char (c : ascii) : bool :=
  let n := Py.code c in
  ((97 <=? n) && (n <=? 122)) || ((65 <=? n) && (n <=? 90))
  || ((48 <=? n) && (n <=? 57)) || (n =? 95) || (n =? 45).

(** The negated character class of the token pattern: any character but
    the ampersand (38) and the double quote (34) *)
Definition is_token_char (c : ascii) : bool :=
  negb ((Py.code c =? 38) || (Py.code c =? 34)).

(** Longest prefix of [s] made of class characters (the greedy [+]). *)
Fixpoint take_run (cls : ascii -> bool) (s : string) : string :=
  match s with
  | EmptyString => EmptyString
  | String c s' => if cls c then String c (take_run cls s') else EmptyString
  end.

(** What is left of [s] after the literal [lit], if [s] starts with it. *)
Fixpoint after_literal (lit s : string) : option string :=
  match lit with
  | EmptyString => Some s
  | String c lit' =>
      match s with
      | EmptyString => None
      | String d s' => if Ascii.eqb c d then after_literal lit' s' else None
      end
  end.

(** The pattern anchored at the start of [s]: group 1 of the match. *)
Definition match_here (cls : ascii -> bool) (lit s : string) : option string :=
  match after_literal lit s with
  | None => None
  | Some rest =>
      match take_run cls rest with
      | EmptyString => None
      | g => Some g
      end
  end.

(** [re.search(pattern, s)] followed by [.group(1)]: the match at the
    leftmost position where the pattern matches. *)
Fixpoint search (cls : ascii -> bool) (lit s : string) : option string :=
  match match_here cls lit s with
  | Some g => Some g
  | None =>
      match s with
      | EmptyString => None
      | String _ s' => search cls lit s'
      end
  end.

End Re.

(** ** The world outside the program *)

(** An HTTP response as far as the program reads it.  The body is given by
    the lengths of the chunks [iter_content] yields, followed by the
    exception that interrupts the transfer, if any.  The lengths are
    lengths of byte strings held in memory, and the sizes of files below
    are sizes of files on a disk: numbers below 2^63.  The status lines
    that print such a number in MB, or as a share of the announced length,
    divide it by a positive integer, which cannot fail in that range; they
    are left out with the other status lines. *)
Record response : Type := mkResponse {
  status_code : Z;
  cookies : list (string * string);
  text : res string;
  content_type : option string;
  content_length : option string;
  chunks : list Z;
  chunks_exn : option exn
}.

(** What an external tool did to its output file. *)
Inductive file_effect : Type :=
| Untouched
| Written (size : Z)
| Removed.

(** Everything the environment decides. *)
Record World : Type := mkWorld {
  (** [os.getenv] *)
  getenv : string -> option string;
  (** [requests.get(url, params=...)] / [session.get(url, params=...)] *)
  http_get : string -> list (string * string) -> res response;
  (** return code of [pip install gdown] *)
  pip_install : res Z;
  (** [gdown url -O out --fuzzy]: return code and stderr, and the effect on
      the output file *)
  gdown : string -> string -> res (Z * string) * file_effect;
  (** [ffprobe]: return code and the value of [float(stdout.strip())],
      [None] when that conversion raises [ValueError] *)
  ffprobe : string -> res (Z * option Py.float);
  (** the encoder launched at the given value of [attempt]: its return
      code, or the exception raised while it was launched or waited for *)
  ffmpeg : Z -> list string -> res Z;
  (** whether the [time.sleep] that follows the given session (numbered
      from 1) is cut short by an interrupt from the keyboard *)
  sleep_interrupted : Z -> bool
}.

(** External actions, in the order they happen. *)
Inductive event : Type :=
| EvGet (url : string) (params : list (string * string))
| EvPipInstall
| EvGdown (url out : string)
| EvFfprobe (path : string)
| EvFfmpeg (session : Z) (cmd : list string)
| EvSleep (secs : Z).

(** The local filesystem (a file is represented by its size in bytes, the
    only attribute the program inspects) and the trace of external
    actions. *)
Record state : Type := mkState {
  files : string -> option Z;
  trace : list event
}.

Definition initial_state : state :=
  {| files := fun _ => None; trace := [] |}.

(** ** A monad for state and exceptions *)

(** A computation maps a state to an outcome and a new state; [None]
    means that the recursion fuel of the bounded loop ran out. *)
Definition M (A : Type) : Type := state -> option (res A * state).

Definition ret {A} (a : A) : M A := fun s => Some (Ret a, s).

Definition raise {A} (e : exn) : M A := fun s => Some (Raise e, s).

Definition bind {A B} (m : M A) (k : A -> M B) : M B :=
  fun s =>
    match m s with
    | Some (Ret a, s') => k a s'
    | Some (Raise e, s') => Some (Raise e, s')
    | None => None
    end.

(** [try: body except Exception as e: handler e] *)
Definition try_except_Exception {A} (body : M A) (handler : exn -> M A) : M A :=
  fun s =>
    match body s with
    | Some (Raise e, s') =>
        if is_Exception e then handler e s' else Some (Raise e, s')
    | r => r
    end.

(** A pure computation that may raise. *)
Definition lift {A} (r : res A) : M A := fun s => Some (r, s).

Definition res_bind {A B} (r : res A) (k : A -> res B) : res B :=
  match r with
  | Ret a => k a
  | Raise e => Raise e
  end.

Definition emit (e : event) : M unit :=
  fun s => Some (Ret tt, {| files := files s; trace := trace s ++ [e] |}).

Declare Scope monad_scope.
Delimit Scope monad_scope with monad.
Notation "x <- m ;; k" := (bind m (fun x => k))
  (at level 61, m at next level, right associativity) : monad_scope.
Notation "m ;;; k" := (bind m (fun _ => k))
  (at level 61, right associativity) : monad_scope.
Notation "x <~ r ;; k" := (res_bind r (fun x => k))
  (at level 61, r at next level, right associativity) : monad_scope.
Local Open Scope monad_scope.

(** *** Filesystem primitives *)

Definition set_file (path : string) (v : option Z) (s : state) : state :=
  {| files := fun p => if String.eqb p path then v else files s p;
     trace := trace s |}.

(** [os.path.exists(path)] *)
Definition path_exists (path : string) : M bool :=
  fun s =>
    Some (Ret (match files s path with Some _ => true | None => false end), s).

(** [os.path.getsize(path)] *)
Definition getsize (path : string) : M Z :=
  fun s =>
    match files s path with
    | Some n => Some (Ret n, s)
    | None => Some (Raise OSError, s)
    end.

(** [open(path, 'wb')]: the file exists and is empty. *)
Definition open_wb (path : string) : M unit :=
  fun s => Some (Ret tt, set_file path (Some 0) s).

(** [f.write(chunk)] for a chunk of [n] bytes *)
Definition write (path : string) (n : Z) : M unit :=
  fun s =>
    match files s path with
    | Some size => Some (Ret tt, set_file path (Some (size + n)) s)
    | None => Some (Raise OSError, s)
    end.

Definition apply_effect (path : string) (fe : file_effect) (s : state) : state :=
  match fe with
  | Untouched => s
  | Written n => set_file path (Some n) s
  | Removed => set_file path None s
  end.

(** ** class YouTubeStreamer *)

Record streamer : Type := mkStreamer {
  stream_key : option string;
  video_url : option string;
  quality : string;
  aspect_ratio : string;
  rtmp_url : string;
  video_file : string;
  max_retries : Z;
  retry_delay : Z
}.

(** How an f-string renders a value that is [None] or a string. *)
Definition format_opt (v : option string) : string :=
  match v with
  | Some s => s
  | None => "None"
  end.

(** [d.get(key, default)] on a dictionary given by its items *)
Fixpoint dict_get {V : Type} (d : list (Z * V)) (key : Z) (default : V) : V :=
  match d with
  | [] => default
  | (k, v) :: d' => if k =? key then v else dict_get d' key default
  end.

(** [is_google_drive_url] *)
Definition is_google_drive_url (url : string) : bool :=
  Py.contains "drive.google.com" url || Py.contains "docs.google.com" url.

(** The literal parts of the four patterns of [extract_gdrive_id]; each is
    followed by the group [([a-zA-Z0-9_-]+)]. *)
Definition patterns : list string :=
  [ "/file/d/"; "id="; "/open?id="; "/d/" ].

Fixpoint first_match (pats : list string) (url : string) : option string :=
  match pats with
  | [] => None
  | pattern :: rest =>
      match Re.search Re.is_id_char pattern url with
      | Some g => Some g
      | None => first_match rest url
      end
  end.

(** [extract_gdrive_id] *)
Definition extract_gdrive_id (url : string) : option string :=
  first_match patterns url.

(** The loop over [response.cookies.items()] in [download_from_gdrive]:
    the value of the first cookie whose name starts with
    [download_warning]. *)
Fixpoint cookie_token (items : list (string * string)) : option string :=
  match items with
  | [] => None
  | (key, value) :: rest =>
      if Py.startswith key "download_warning" then Some value
      else cookie_token rest
  end.

(** The token after the cookies and, if that left none, the page text were
    inspected: [if not token: ... re.search(r'confirm=...', content)]. *)
Definition confirm_token (r : response) : res (option string) :=
  let token := cookie_token (cookies r) in
  if Py.falsy token then
    content <~ text r ;;
    match Re.search Re.is_token_char "confirm=" content with
    | Some g => Ret (Some g)
    | None => Ret token
    end
  else Ret token.

(** The parameters of the second request. *)
Definition second_params (file_id : string) (token : option string)
  : list (string * string) :=
  match token with
  | Some t =>
      if Py.falsy token then [("id", file_id); ("confirm", "t")]
      else [("id", file_id); ("confirm", t)]
  | None => [("id", file_id); ("confirm", "t")]
  end.

(** [int(response.headers.get('content-length', 0))] *)
Definition total_size_of (r : response) : res Z :=
  match content_length r with
  | Some v => Py.int_of_str v
  | None => Ret 0
  end.

(** [for chunk in response.iter_content(...): if chunk: f.write(chunk);
    downloaded += len(chunk)] *)
Fixpoint write_chunks (path : string) (cs : list Z) (downloaded : Z) : M Z :=
  match cs with
  | [] => ret downloaded
  | n :: cs' =>
      if n =? 0 then write_chunks path cs' downloaded
      else write path n ;;; write_chunks path cs' (downloaded + n)
  end.

(** The [with open(path, 'wb')] block that stores the body of [r]. *)
Definition save_body (path : string) (r : response) : M Z :=
  open_wb path ;;;
  downloaded <- write_chunks path (chunks r) 0 ;;
  match chunks_exn r with
  | Some e => raise e
  | None => ret downloaded
  end.

(** [response.raise_for_status()] *)
Definition raise_for_status (r : response) : M unit :=
  if (400 <=? status_code r) && (status_code r <? 600)
  then raise RequestException else ret tt.

Definition bitrate_map : list (Z * string) :=
  [ (360, "800k"); (480, "1200k"); (720, "2500k");
    (1080, "4500k"); (1440, "9000k"); (2160, "20000k") ].

(** [int(height * num / den)] *)
Definition scaled (height num den : Z) : res Z :=
  f <~ Py.truediv (height * num) den ;; Ret (Py.int_of_float f).

(** The [if]/[elif] chain that computes the width from the height. *)
Definition aspect_width (height : Z) (aspect_ratio : string) : res Z :=
  if String.eqb aspect_ratio "16:9" then scaled height 16 9
  else if String.eqb aspect_ratio "9:16" then scaled height 9 16
  else if String.eqb aspect_ratio "4:3" then scaled height 4 3
  else if String.eqb aspect_ratio "1:1" then Ret height
  else scaled height 16 9.

(** The [# Parse quality] block of [start_streaming]: width and height. *)
Definition parse_quality (quality aspect_ratio : string) : res (Z * Z) :=
  if Py.contains "p" quality then
    height <~ Py.int_of_str (Py.remove_char "p" quality) ;;
    width <~ aspect_width height aspect_ratio ;;
    let width := if width mod 2 =? 0 then width else width + 1 in
    Ret (width, height)
  else Ret (1280, 720).

(** [str(int(video_bitrate.replace('k', '')) * 2) + 'k'] *)
Definition bufsize_of (video_bitrate : string) : res string :=
  n <~ Py.int_of_str (Py.remove_char "k" video_bitrate) ;;
  doubled <~ Py.str_int (n * 2) ;;
  Ret (doubled ++ "k").

(** The encoding parameters [start_streaming] derives before it launches
    the encoder. *)
Record plan : Type := mkPlan {
  width : Z;
  height : Z;
  video_bitrate : string;
  bufsize : string
}.

Definition encoding_plan (quality aspect_ratio : string) : res plan :=
  wh <~ parse_quality quality aspect_ratio ;;
  let '(width, height) := wh in
  let video_bitrate := dict_get bitrate_map height "2500k" in
  bufsize <~ bufsize_of video_bitrate ;;
  Ret (mkPlan width height video_bitrate bufsize).

(** The text of the status line [f"Output resolution: {width}x{height}"],
    the first place where the two numbers are converted to text. *)
Definition resolution_text (p : plan) : res string :=
  w <~ Py.str_int (width p) ;;
  h <~ Py.str_int (height p) ;;
  Ret ("Output resolution: " ++ w ++ "x" ++ h).

(** [total_size / (1024*1024)] for the status line that announces the file
    size, computed only [if total_size > 0]. *)
Definition size_status (total_size : Z) : res unit :=
  if 0 <? total_size
  then f <~ Py.truediv total_size (1024 * 1024) ;; Ret tt
  else Ret tt.

(** [ffmpeg_cmd].  Its two numbers were converted to text for the status
    line just before, so their conversion cannot fail here. *)
Definition ffmpeg_cmd (self : streamer) (p : plan) : list string :=
  let w := Py.str_of_int (width p) in
  let h := Py.str_of_int (height p) in
  [ "ffmpeg";
    "-stream_loop"; "-1";
    "-re";
    "-i"; video_file self;
    "-vf"; "scale=" ++ w ++ ":" ++ h
           ++ ":force_original_aspect_ratio=decrease,pad=" ++ w ++ ":" ++ h
           ++ ":(ow-iw)/2:(oh-ih)/2";
    "-c:v"; "libx264";
    "-preset"; "veryfast";
    "-b:v"; video_bitrate p;
    "-maxrate"; video_bitrate p;
    "-bufsize"; bufsize p;
    "-pix_fmt"; "yuv420p";
    "-g"; "60";
    "-c:a"; "aac";
    "-b:a"; "128k";
    "-ar"; "44100";
    "-f"; "flv";
    rtmp_url self ].

(** [base_url] of [download_from_gdrive] *)
Definition base_url : string := "https://drive.google.com/uc?export=download".

(** What one pass through the body of the [while] loop decides. *)
Inductive ctl : Type :=
| Return (b : bool)
| Continue.

Section Methods.

Variable w : World.

(** [__init__] *)
Definition init : streamer :=
  let key := getenv w "YOUTUBE_STREAM_KEY" in
  {| stream_key := key;
     video_url := getenv w "VIDEO_URL";
     quality := match getenv w "VIDEO_QUALITY" with Some q => q | None => "720p" end;
     aspect_ratio := match getenv w "ASPECT_RATIO" with Some a => a | None => "16:9" end;
     rtmp_url := "rtmp://a.rtmp.youtube.com/live2/" ++ format_opt key;
     video_file := "video.mp4";
     max_retries := 3;
     retry_delay := 5 |}.

(** [session.get] / [requests.get] *)
Definition get (url : string) (params : list (string * string)) : M response :=
  emit (EvGet url params) ;;; lift (http_get w url params).

(** [subprocess.run([sys.executable, '-m', 'pip', 'install', 'gdown', '-q'],
    check=True, timeout=60)] *)
Definition run_pip : M unit :=
  emit EvPipInstall ;;;
  rc <- lift (pip_install w) ;;
  if rc =? 0 then ret tt else raise SubprocessError.

(** [subprocess.run(['gdown', url, '-O', output_path, '--fuzzy'], ...)] *)
Definition run_gdown (url output_path : string) : M (Z * string) :=
  emit (EvGdown url output_path) ;;;
  fun s =>
    let '(r, fe) := gdown w url output_path in
    Some (r, apply_effect output_path fe s).

(** [download_gdrive_alternative].  Every path that does not return inside
    the [try] falls through to the final [return False].  [os.path.exists]
    only reads the filesystem, so it is evaluated before the test of the
    return code instead of after it. *)
Definition download_gdrive_alternative (file_id output_path : string) : M bool :=
  try_except_Exception
    (run_pip ;;;
     let url := "https://drive.google.com/uc?id=" ++ file_id in
     result <- run_gdown url output_path ;;
     let '(returncode, _) := result in
     present <- path_exists output_path ;;
     if (returncode =? 0) && present then
       file_size <- getsize output_path ;;
       ret (10000 <? file_size)
     else ret false)
    (fun _ => ret false).

(** The [try] block of [download_from_gdrive]. *)
Definition gdrive_attempt (file_id output_path : string) : M bool :=
  response <- get base_url [("id", file_id)] ;;
  token <- lift (confirm_token response) ;;
  let params := second_params file_id token in
  response <- get base_url params ;;
  let content_type :=
    match content_type response with Some v => v | None => "" end in
  if Py.contains "text/html" content_type then
    download_gdrive_alternative file_id output_path
  else
    total_size <- lift (total_size_of response) ;;
    lift (size_status total_size) ;;;
    downloaded <- save_body output_path response ;;
    file_size <- getsize output_path ;;
    if file_size <? 10000 then
      download_gdrive_alternative file_id output_path
    else ret true.

(** [download_from_gdrive] *)
Definition download_from_gdrive (file_id output_path : string) : M bool :=
  try_except_Exception
    (gdrive_attempt file_id output_path)
    (fun _ => download_gdrive_alternative file_id output_path).

(** The [try] block of the [else] branch of [download_video]. *)
Definition direct_attempt (self : streamer) (url : string) : M bool :=
  response <- get url [] ;;
  raise_for_status response ;;;
  total_size <- lift (total_size_of response) ;;
  downloaded <- save_body (video_file self) response ;;
  ret true.

(** The [else] branch of [download_video]: a direct URL. *)
Definition download_direct (self : streamer) (url : string) : M bool :=
  try_except_Exception (direct_attempt self url) (fun _ => ret false).

(** The [if] branch of [download_video]: a Google Drive URL. *)
Definition download_drive (self : streamer) (url : string) : M bool :=
  match extract_gdrive_id url with
  | None => ret false
  | Some file_id =>
      if Py.falsy (Some file_id) then ret false
      else download_from_gdrive file_id (video_file self)
  end.

(** [download_video] *)
Definition download_video (self : streamer) : M bool :=
  match video_url self with
  | None => raise TypeError
  | Some url =>
      if is_google_drive_url url then download_drive self url
      else download_direct self url
  end.

(** [get_video_duration] *)
Definition get_video_duration (self : streamer) : M (option Py.float) :=
  try_except_Exception
    (emit (EvFfprobe (video_file self)) ;;;
     result <- lift (ffprobe w (video_file self)) ;;
     let '(returncode, parsed) := result in
     if negb (returncode =? 0) then ret None
     else
       match parsed with
       | Some duration => ret (Some duration)
       | None => raise ValueError
       end)
    (fun _ => ret None).

(** One pass through the [try] statement of the streaming loop. *)
Definition stream_session (cmd : list string) (attempt : Z) : M ctl :=
  fun s =>
    match (emit (EvFfmpeg (attempt + 1) cmd) ;;; lift (ffmpeg w attempt cmd)) s with
    | Some (Ret _, s') => Some (Ret Continue, s')
    | Some (Raise KeyboardInterrupt, s') => Some (Ret (Return true), s')
    | Some (Raise e, s') =>
        if is_Exception e then Some (Ret Continue, s') else Some (Raise e, s')
    | None => None
    end.

(** [time.sleep(self.retry_delay)] after [attempt] was incremented *)
Definition do_sleep (attempt secs : Z) : M unit :=
  emit (EvSleep secs) ;;;
  if sleep_interrupted w attempt then raise KeyboardInterrupt else ret tt.

(** [while attempt < 999: ...; attempt += 1; time.sleep(...)] followed by
    [return True].  [fuel] bounds the number of passes. *)
Fixpoint stream_loop (fuel : nat) (self : streamer) (cmd : list string)
  (attempt : Z) : M bool :=
  if attempt <? 999 then
    match fuel with
    | O => fun _ => None
    | S fuel' =>
        c <- stream_session cmd attempt ;;
        match c with
        | Return b => ret b
        | Continue =>
            let attempt := attempt + 1 in
            do_sleep attempt (retry_delay self) ;;;
            stream_loop fuel' self cmd attempt
        end
    end
  else ret true.

(** [start_streaming] *)
Definition start_streaming (self : streamer) : M bool :=
  p <- lift (encoding_plan (quality self) (aspect_ratio self)) ;;
  lift (resolution_text p) ;;;
  let cmd := ffmpeg_cmd self p in
  let attempt := 0 in
  stream_loop 999 self cmd attempt.

(** [run] *)
Definition run (self : streamer) : M bool :=
  if Py.falsy (stream_key self) then ret false
  else if Py.falsy (video_url self) then ret false
  else
    ok <- download_video self ;;
    if negb ok then ret false
    else
      present <- path_exists (video_file self) ;;
      if negb present then ret false
      else
        file_size <- getsize (video_file self) ;;
        if file_size <? 10000 then ret false
        else
          get_video_duration self ;;;
          start_streaming self ;;;
          ret true.

(** [main]: the status given to [sys.exit]. *)
Definition main : option Z :=
  match run init initial_state with
  | Some (Ret success, _) => Some (if success then 0 else 1)
  | Some (Raise KeyboardInterrupt, _) => Some 0
  | Some (Raise _, _) => Some 1
  | None => None
  end.

End Methods.

(** ** Vocabulary of the properties *)

(** [needle] occurs somewhere in [s]. *)
Definition occurs (needle s : string) : Prop :=
  exists pre post, s = pre ++ needle ++ post.

Fixpoint all_chars (cls : ascii -> bool) (s : string) : bool :=
  match s with
  | EmptyString => true
  | String c s' => cls c && all_chars cls s'
  end.

(** [post] does not continue a run of class characters. *)
Definition run_ends (cls : ascii -> bool) (post : string) : Prop :=
  match post with
  | EmptyString => True
  | String c _ => cls c = false
  end.

(** The pattern [lit(cls+)] matches [url] right after the prefix [pre], and
    its group is [g]: a non-empty, maximal run of class characters. *)
Definition matches_at (cls : ascii -> bool) (lit url pre g : string) : Prop :=
  exists post,
    url = pre ++ lit ++ g ++ post
    /\ g <> EmptyString
    /\ all_chars cls g = true
    /\ run_ends cls post.

(** [g] is the group of the leftmost match of the pattern in [url]. *)
Definition leftmost_match (cls : ascii -> bool) (lit url g : string) : Prop :=
  exists pre,
    matches_at cls lit url pre g
    /\ forall pre' g', matches_at cls lit url pre' g' ->
                       (String.length pre <= String.length pre')%nat.

(** The pattern matches nowhere in [url]. *)
Definition no_match (cls : ascii -> bool) (lit url : string) : Prop :=
  forall pre g, ~ matches_at cls lit url pre g.

(** The external actions of [n] encoder sessions that each end and are
    followed by the pause, the first of them numbered [first + 1]. *)
Fixpoint sessions_trace (cmd : list string) (delay : Z) (first : Z) (n : nat)
  : list event :=
  match n with
  | O => []
  | S n' =>
      EvFfmpeg (first + 1) cmd :: EvSleep delay
      :: sessions_trace cmd delay (first + 1) n'
  end.

(** Number of encoder launches and of pauses in a trace. *)
Fixpoint count_launches (t : list event) : nat :=
  match t with
  | [] => O
  | EvFfmpeg _ _ :: t' => S (count_launches t')
  | _ :: t' => count_launches t'
  end.

Fixpoint count_sleeps (t : list event) : nat :=
  match t with
  | [] => O
  | EvSleep _ :: t' => S (count_sleeps t')
  | _ :: t' => count_sleeps t'
  end.

(** The fallback tool was started. *)
Definition is_fallback_event (e : event) : bool :=
  match e with
  | EvPipInstall => true
  | EvGdown _ _ => true
  | _ => false
  end.

(** Bytes stored by [write_chunks]. *)
Fixpoint body_size (cs : list Z) : Z :=
  match cs with
  | [] => 0
  | n :: cs' => n + body_size cs'
  end.

(** Every run of [m] relates the state before to the state after by [I]. *)
Definition preserves {A} (I : state -> state -> Prop) (m : M A) : Prop :=
  forall s r s', m s = Some (r, s') -> I s s'.

(** [m] always produces an outcome. *)
Definition total {A} (m : M A) : Prop :=
  forall s, exists r s', m s = Some (r, s').

(** [m] lets no subclass of [Exception] escape. *)
Definition contains_errors {A} (m : M A) : Prop :=
  forall s e s', m s = Some (Raise e, s') -> is_Exception e = false.

(** No encoder was launched between the two states. *)
Definition same_launches (s s' : state) : Prop :=
  count_launches (trace s') = count_launches (trace s).

(** The filesystem is the same in the two states. *)
Definition same_files (s s' : state) : Prop := files s' = files s.

(** Only [path] may differ between the two filesystems, the trace grew by
    [evs]. *)
Definition wrote_only (path : string) (evs : list event) (s s' : state) : Prop :=
  (forall p, p <> path -> files s' p = files s p)
  /\ trace s' = (trace s ++ evs)%list.

(** The trace of the second state continues the trace of the first. *)
Definition extends (s s' : state) : Prop :=
  exists rest, trace s' = (trace s ++ rest)%list.

(** The external actions of the acquisition. *)
Definition is_acquisition_event (e : event) : bool :=
  match e with
  | EvGet _ _ => true
  | EvPipInstall => true
  | EvGdown _ _ => true
  | _ => false
  end.

(** An encoder session that ends: it returns a code or fails with an
    error, but is not interrupted from the keyboard. *)
Definition session_ends (r : res Z) : Prop :=
  match r with
  | Ret _ => True
  | Raise e => is_Exception e = true
  end.

(** [quality] is a non-empty run of digits followed by one [p]. *)
Fixpoint number_p (s : string) (after_digit : bool) : bool :=
  match s with
  | EmptyString => false
  | String c s' =>
      if Py.is_digit c then number_p s' true
      else Ascii.eqb c "p" && after_digit && String.eqb s' ""
  end.

Definition expected_shape (quality : string) : bool := number_p quality false.

(** [width] rounded up to the next even integer when it is odd. *)
Definition round_up_even (width : Z) : Z :=
  if Z.even width then width else width + 1.

Ltac unfold_monad :=
  unfold bind, ret, raise, lift, emit, try_except_Exception in *.

Ltac break_match :=
  match goal with
  | |- context [match ?x with _ => _ end] => destruct x eqn:?
  | H : context [match ?x with _ => _ end] |- _ => destruct x eqn:?
  end.

(** The number a string of decimal digits denotes. *)
Fixpoint decimal_acc (s : string) (acc : Z) : Z :=
  match s with
  | EmptyString => acc
  | String c s' => decimal_acc s' (10 * acc + (Py.code c - 48))
  end.

Definition decimal_value (s : string) : Z := decimal_acc s 0.

(** ** Example worlds *)

Module Examples.

Definition drive_url : string := "https://drive.google.com/file/d/F1-x/view".

Definition direct_url : string := "https://cdn.example.org/video.mp4".

Definition env (url : string) (name : string) : option string :=
  if String.eqb name "YOUTUBE_STREAM_KEY" then Some "abcd-efgh-ijkl-mnop"
  else if String.eqb name "VIDEO_URL" then Some url
  else None.

(** The first answer of the host: two warning cookies, the first of them
    empty, and a page that embeds a token of its own. *)
Definition warning_page : response :=
  {| status_code := 200;
     cookies := [("NID", "511"); ("download_warning_1", "");
                 ("download_warning_2", "COOKIE")];
     text := Ret "<a href=/uc?export=download&confirm=BODY&id=F1-x>";
     content_type := Some "text/html; charset=utf-8";
     content_length := None;
     chunks := [];
     chunks_exn := None |}.

(** The first answer of the host with one warning cookie that has a value. *)
Definition cookie_page : response :=
  {| status_code := 200;
     cookies := [("NID", "511"); ("download_warning_1", "COOKIE")];
     text := Ret "<a href=/uc?export=download&confirm=BODY&id=F1-x>";
     content_type := Some "text/html; charset=utf-8";
     content_length := None;
     chunks := [];
     chunks_exn := None |}.

(** A media answer whose body has the given chunk lengths. *)
Definition media (lengths : list Z) : response :=
  {| status_code := 200;
     cookies := [];
     text := Ret "";
     content_type := Some "video/mp4";
     content_length := None;
     chunks := lengths;
     chunks_exn := None |}.

(** A world around a Drive URL: [first] answers the first request, the
    second one gets a media body of the given chunks, the fallback tool
    leaves a file of [tool_size] bytes, the encoder ends [exits] times and
    is then interrupted from the keyboard. *)
Definition drive_world (first : response) (lengths : list Z) (tool_size : Z)
  (exits : Z) : World :=
  {| getenv := env drive_url;
     http_get := fun _ params =>
       match params with
       | [_] => Ret first
       | _ => Ret (media lengths)
       end;
     pip_install := Ret 0;
     gdown := fun _ _ => (Ret (0, ""), Written tool_size);
     ffprobe := fun _ => Ret (0, None);
     ffmpeg := fun k _ => if k <? exits then Ret 1 else Raise KeyboardInterrupt;
     sleep_interrupted := fun _ => false |}.

(** A world around a direct URL whose server cannot be reached. *)
Definition unreachable_world : World :=
  {| getenv := env direct_url;
     http_get := fun _ _ => Raise RequestException;
     pip_install := Ret 0;
     gdown := fun _ _ => (Ret (0, ""), Written 50000);
     ffprobe := fun _ => Ret (0, None);
     ffmpeg := fun _ _ => Raise KeyboardInterrupt;
     sleep_interrupted := fun _ => false |}.

(** A world around a direct URL that serves a body of the given chunks. *)
Definition direct_world (lengths : list Z) : World :=
  {| getenv := env direct_url;
     http_get := fun _ _ => Ret (media lengths);
     pip_install := Ret 0;
     gdown := fun _ _ => (Ret (0, ""), Written 50000);
     ffprobe := fun _ => Ret (0, None);
     ffmpeg := fun _ _ => Raise KeyboardInterrupt;
     sleep_interrupted := fun _ => false |}.

End Examples.

(** ** Further vocabulary *)

(** The patterns of [extract_gdrive_id] without the third one. *)
Definition effective_patterns : list string := [ "/file/d/"; "id="; "/d/" ].

(** The width before rounding, in integer arithmetic (floor division). *)
Definition exact_width (height : Z) (aspect_ratio : string) : Z :=
  if String.eqb aspect_ratio "16:9" then height * 16 / 9
  else if String.eqb aspect_ratio "9:16" then height * 9 / 16
  else if String.eqb aspect_ratio "4:3" then height * 4 / 3
  else if String.eqb aspect_ratio "1:1" then height
  else height * 16 / 9.

(** The values of [downloaded] at which the download loops print a
    progress line: [if enabled and downloaded % period < chunk_size] after
    every non-empty chunk. *)
Fixpoint progress_marks (enabled : bool) (period chunk_size : Z)
  (cs : list Z) (downloaded : Z) : list Z :=
  match cs with
  | [] => []
  | n :: cs' =>
      if n =? 0 then progress_marks enabled period chunk_size cs' downloaded
      else
        let downloaded := downloaded + n in
        if enabled && (downloaded mod period <? chunk_size)
        then downloaded :: progress_marks enabled period chunk_size cs' downloaded
        else progress_marks enabled period chunk_size cs' downloaded
  end.

(** The progress lines of [download_from_gdrive]: every 50 MB, chunks of
    32768 bytes. *)
Definition gdrive_progress (cs : list Z) : list Z :=
  progress_marks true (1024 * 1024 * 50) 32768 cs 0.

(** The progress lines of the direct download: every 10 MB, chunks of 8192
    bytes, and only [if total_size > 0]. *)
Definition direct_progress (total_size : Z) (cs : list Z) : list Z :=
  progress_marks (0 <? total_size) (1024 * 1024 * 10) 8192 cs 0.

(** What [get_video_duration] returns for an answer of the probe. *)
Definition probe_result (r : res (Z * option Py.float)) : option Py.float :=
  match r with
  | Ret (returncode, Some duration) =>
      if returncode =? 0 then Some duration else None
  | _ => None
  end.

(** How a run of the streaming loop can end after [n] ended sessions:
    with nothing more, or with one more launch that was interrupted. *)
Definition loop_tail (cmd : list string) (first : Z) (n : nat)
  (r : res bool) (tail : list event) : Prop :=
  (tail = [] /\ (r = Ret true -> first + Z.of_nat n = 999)
   /\ (r = Raise KeyboardInterrupt -> (0 < n)%nat))
  \/ (tail = [EvFfmpeg (first + Z.of_nat n + 1) cmd]
      /\ r = Ret true /\ first + Z.of_nat n < 999).

Module MoreExamples.

(** A world in which the encoder cannot be started at all. *)
Definition no_encoder_world : World :=
  {| getenv := Examples.env Examples.direct_url;
     http_get := fun _ _ => Ret (Examples.media [20000]);
     pip_install := Ret 0;
     gdown := fun _ _ => (Ret (0, ""), Written 50000);
     ffprobe := fun _ => Raise OSError;
     ffmpeg := fun _ _ => Raise OSError;
     sleep_interrupted := fun _ => false |}.

(** A world in which the encoder ends twice and the second pause is
    interrupted from the keyboard. *)
Definition pause_interrupt_world : World :=
  {| getenv := Examples.env Examples.direct_url;
     http_get := fun _ _ => Ret (Examples.media [20000]);
     pip_install := Ret 0;
     gdown := fun _ _ => (Ret (0, ""), Written 50000);
     ffprobe := fun _ => Ret (0, None);
     ffmpeg := fun _ _ => Ret 1;
     sleep_interrupted := fun k => k =? 2 |}.

(** A first answer without cookies and without a token in its page. *)
Definition plain_page : response :=
  {| status_code := 200;
     cookies := [("NID", "511")];
     text := Ret "<html>Quota exceeded</html>";
     content_type := Some "text/html; charset=utf-8";
     content_length := None;
     chunks := [];
     chunks_exn := None |}.

(** A world around a Drive URL whose host answers every request with the
    same HTML page. *)
Definition html_world : World :=
  {| getenv := Examples.env Examples.drive_url;
     http_get := fun _ _ => Ret plain_page;
     pip_install := Ret 0;
     gdown := fun _ _ => (Ret (0, ""), Written 50000);
     ffprobe := fun _ => Ret (0, None);
     ffmpeg := fun _ _ => Raise KeyboardInterrupt;
     sleep_interrupted := fun _ => false |}.

(** A server that answers with status 404. *)
Definition not_found_world : World :=
  {| getenv := Examples.env Examples.direct_url;
     http_get := fun _ _ =>
       Ret {| status_code := 404; cookies := []; text := Ret "";
              content_type := Some "text/html"; content_length := None;
              chunks := [300]; chunks_exn := None |};
     pip_install := Ret 0;
     gdown := fun _ _ => (Ret (0, ""), Written 50000);
     ffprobe := fun _ => Ret (0, None);
     ffmpeg := fun _ _ => Raise KeyboardInterrupt;
     sleep_interrupted := fun _ => false |}.

End MoreExamples.

(** ** Strings *)

Lemma append_assoc (a b c : string) : (a ++ b) ++ c = a ++ (b ++ c).
Proof. induction a as [|x a IH]; simpl; [reflexivity | now rewrite IH]. Qed.

Lemma append_nil_r (a : string) : a ++ "" = a.
Proof. induction a as [|x a IH]; simpl; [reflexivity | now rewrite IH]. Qed.

Lemma startswith_spec (p s : string) :
  Py.startswith s p = true <-> exists post, s = p ++ post.
Proof.
  revert s; induction p as [|c p IH]; intros s; simpl.
  - split; [intros _; now exists s | reflexivity].
  - destruct s as [|d s].
    + split; [discriminate | intros [post H]; discriminate].
    + rewrite andb_true_iff, Ascii.eqb_eq, IH. split.
      * intros [-> [post ->]]. now exists post.
      * intros [post H]. injection H as -> ->. split; [reflexivity | now exists post].
Qed.

Lemma contains_spec (needle s : string) :
  Py.contains needle s = true <-> occurs needle s.
Proof.
  unfold occurs. induction s as [|c s IH]; simpl.
  - rewrite orb_false_r, startswith_spec. split.
    + intros [post H]. now exists "", post.
    + intros [pre [post H]]. destruct pre; [now exists post | discriminate].
  - rewrite orb_true_iff, startswith_spec, IH. split.
    + intros [[post H] | [pre [post H]]].
      * now exists "", post.
      * exists (String c pre), post. simpl. now rewrite H.
    + intros [pre [post H]]. destruct pre as [|d pre]; simpl in H.
      * left. now exists post.
      * right. injection H as -> ->. now exists pre, post.
Qed.

Lemma contains_false_spec (needle s : string) :
  Py.contains needle s = false <-> ~ occurs needle s.
Proof.
  rewrite <- contains_spec. destruct (Py.contains needle s); split; intros H.
  - discriminate.
  - now elim H.
  - discriminate.
  - reflexivity.
Qed.

(** ** Regular-expression search *)

Lemma after_literal_spec (lit s rest : string) :
  Re.after_literal lit s = Some rest <-> s = lit ++ rest.
Proof.
  revert s; induction lit as [|c lit IH]; intros s; simpl.
  - split; [now intros [= ->] | now intros ->].
  - destruct s as [|d s]; [split; discriminate|].
    destruct (Ascii.eqb c d) eqn:E.
    + apply Ascii.eqb_eq in E as ->. rewrite IH. split; [now intros -> | now intros [= ->]].
    + split; [discriminate|]. intros [= -> _]. now rewrite Ascii.eqb_refl in E.
Qed.

Lemma take_run_unique (cls : ascii -> bool) (g post : string) :
  all_chars cls g = true -> run_ends cls post -> Re.take_run cls (g ++ post) = g.
Proof.
  induction g as [|c g IH]; simpl; intros Hg Hp.
  - destruct post as [|d post]; simpl in *; [reflexivity | now rewrite Hp].
  - apply andb_true_iff in Hg as [Hc Hg]. now rewrite Hc, IH.
Qed.

Lemma take_run_split (cls : ascii -> bool) (s : string) :
  exists post,
    s = Re.take_run cls s ++ post
    /\ all_chars cls (Re.take_run cls s) = true
    /\ run_ends cls post.
Proof.
  induction s as [|c s [post [H1 [H2 H3]]]]; simpl.
  - now exists "".
  - destruct (cls c) eqn:E; simpl.
    + exists post. rewrite E, H2. now rewrite <- H1.
    + exists (String c s). simpl. now rewrite E.
Qed.

Lemma match_here_spec (cls : ascii -> bool) (lit s g : string) :
  Re.match_here cls lit s = Some g <-> matches_at cls lit s "" g.
Proof.
  unfold Re.match_here, matches_at. simpl. split.
  - destruct (Re.after_literal lit s) as [rest|] eqn:E; [|discriminate].
    apply after_literal_spec in E as ->.
    destruct (take_run_split cls rest) as [post [H1 [H2 H3]]].
    destruct (Re.take_run cls rest) as [|c r] eqn:R; [discriminate|].
    intros [= <-]. exists post. rewrite <- H1. repeat split; [discriminate | assumption | assumption].
  - intros [post [-> [Hne [Hg Hp]]]].
    assert (E : Re.after_literal lit (lit ++ g ++ post) = Some (g ++ post))
      by now apply after_literal_spec.
    rewrite E, (take_run_unique cls g post Hg Hp).
    destruct g; [now elim Hne | reflexivity].
Qed.

Lemma matches_at_cons (cls : ascii -> bool) (lit : string) (c : ascii)
  (url pre g : string) :
  matches_at cls lit (String c url) (String c pre) g <-> matches_at cls lit url pre g.
Proof.
  unfold matches_at; simpl; split; intros [post [H R]]; exists post; split;
    try assumption; [now injection H | now rewrite H].
Qed.

Lemma matches_at_head (cls : ascii -> bool) (lit : string) (c d : ascii)
  (url pre g : string) :
  matches_at cls lit (String c url) (String d pre) g -> d = c.
Proof. intros [post [H _]]. simpl in H. now injection H. Qed.

Lemma matches_at_empty (cls : ascii -> bool) (lit pre g : string) :
  matches_at cls lit "" pre g -> pre = "".
Proof. intros [post [H _]]. destruct pre; [reflexivity | discriminate]. Qed.

Lemma search_none (cls : ascii -> bool) (lit url : string) :
  Re.search cls lit url = None <-> no_match cls lit url.
Proof.
  unfold no_match. induction url as [|c url IH]; simpl.
  - destruct (Re.match_here cls lit "") as [g|] eqn:E.
    + split; [discriminate|]. intros H. apply match_here_spec in E. now elim (H "" g).
    + split; [|reflexivity]. intros _ pre g H.
      pose proof (matches_at_empty _ _ _ _ H) as ->.
      apply match_here_spec in H. congruence.
  - destruct (Re.match_here cls lit (String c url)) as [g|] eqn:E.
    + split; [discriminate|]. intros H. apply match_here_spec in E. now elim (H "" g).
    + rewrite IH. split.
      * intros H pre g Hm. destruct pre as [|d pre].
        -- apply match_here_spec in Hm. congruence.
        -- pose proof (matches_at_head _ _ _ _ _ _ _ Hm) as ->.
           apply matches_at_cons in Hm. now apply (H pre g).
      * intros H pre g Hm. apply (H (String c pre) g). now apply matches_at_cons.
Qed.

Lemma search_some (cls : ascii -> bool) (lit url g : string) :
  Re.search cls lit url = Some g <-> leftmost_match cls lit url g.
Proof.
  unfold leftmost_match. revert g. induction url as [|c url IH]; intros g; simpl.
  - destruct (Re.match_here cls lit "") as [g0|] eqn:E.
    + split.
      * intros [= <-]. exists "". split; [now apply match_here_spec|]. intros; simpl; lia.
      * intros [pre [Hm _]]. pose proof (matches_at_empty _ _ _ _ Hm) as ->.
        apply match_here_spec in Hm. congruence.
    + split; [discriminate|]. intros [pre [Hm _]].
      pose proof (matches_at_empty _ _ _ _ Hm) as ->.
      apply match_here_spec in Hm. congruence.
  - destruct (Re.match_here cls lit (String c url)) as [g0|] eqn:E.
    + split.
      * intros [= <-]. exists "". split; [now apply match_here_spec|]. intros; simpl; lia.
      * intros [pre [Hm Hmin]]. apply match_here_spec in E.
        specialize (Hmin "" g0 E). destruct pre; simpl in Hmin; [|lia].
        apply match_here_spec in Hm, E. congruence.
    + rewrite IH. split.
      * intros [pre [Hm Hmin]]. exists (String c pre). split; [now apply matches_at_cons|].
        intros pre' g' Hm'. destruct pre' as [|d pre'].
        -- apply match_here_spec in Hm'. congruence.
        -- pose proof (matches_at_head _ _ _ _ _ _ _ Hm') as ->.
           apply matches_at_cons in Hm'. specialize (Hmin _ _ Hm'). simpl; lia.
      * intros [pre [Hm Hmin]]. destruct pre as [|d pre].
        -- apply match_here_spec in Hm. congruence.
        -- pose proof (matches_at_head _ _ _ _ _ _ _ Hm) as ->.
           exists pre. split; [now apply matches_at_cons in Hm|].
           intros pre' g' Hm'. apply (matches_at_cons cls lit c) in Hm'.
           specialize (Hmin _ _ Hm'). simpl in Hmin; lia.
Qed.

Lemma first_match_spec (url : string) (pats : list string) :
  (forall before lit after g,
      pats = (before ++ lit :: after)%list ->
      (forall lit', In lit' before -> no_match Re.is_id_char lit' url) ->
      leftmost_match Re.is_id_char lit url g ->
      first_match pats url = Some g)
  /\ ((forall lit, In lit pats -> no_match Re.is_id_char lit url) ->
      first_match pats url = None).
Proof.
  induction pats as [|p pats [IH1 IH2]]; simpl.
  - split; [|reflexivity]. intros [|] ? ? ? H; discriminate.
  - split.
    + intros before lit after g Hp Hb Hm. destruct before as [|b before]; simpl in Hp.
      * injection Hp as -> ->. apply search_some in Hm. now rewrite Hm.
      * injection Hp as -> ->.
        assert (Hn : Re.search Re.is_id_char b url = None)
          by (apply search_none, Hb; now left).
        rewrite Hn. apply (IH1 before lit after g eq_refl); [|assumption].
        intros lit' Hin. apply Hb. now right.
    + intros H.
      assert (Hn : Re.search Re.is_id_char p url = None)
        by (apply search_none, H; now left).
      rewrite Hn. apply IH2. intros lit Hin. apply H. now right.
Qed.

(** ** Rules for computations *)

Section Rules.

Context {A B : Type}.

Lemma total_ret (a : A) : total (ret a).
Proof. intros s. now exists (Ret a), s. Qed.

Lemma total_raise (e : exn) : total (@raise A e).
Proof. intros s. now exists (Raise e), s. Qed.

Lemma total_lift (r : res A) : total (lift r).
Proof. intros s. now exists r, s. Qed.

Lemma total_bind (m : M A) (k : A -> M B) :
  total m -> (forall a, total (k a)) -> total (bind m k).
Proof.
  intros Hm Hk s. unfold bind. destruct (Hm s) as [r [s1 ->]].
  destruct r as [a|e]; [apply Hk | now exists (Raise e), s1].
Qed.

Lemma total_try (m : M A) (h : exn -> M A) :
  total m -> (forall e, total (h e)) -> total (try_except_Exception m h).
Proof.
  intros Hm Hh s. unfold try_except_Exception. destruct (Hm s) as [r [s1 ->]].
  destruct r as [a|e]; [now exists (Ret a), s1|].
  destruct (is_Exception e); [apply Hh | now exists (Raise e), s1].
Qed.

Lemma contains_errors_ret (a : A) : contains_errors (ret a).
Proof. intros s e s' H. discriminate. Qed.

Lemma contains_errors_try (m : M A) (h : exn -> M A) :
  (forall e, contains_errors (h e)) -> contains_errors (try_except_Exception m h).
Proof.
  intros Hh s e s'. unfold try_except_Exception.
  destruct (m s) as [[[a|e0] s1]|]; try discriminate.
  destruct (is_Exception e0) eqn:E; [apply Hh|]. now intros [= <- <-].
Qed.

Variable I : state -> state -> Prop.
Hypothesis I_refl : forall s, I s s.
Hypothesis I_trans : forall a b c, I a b -> I b c -> I a c.

Lemma preserves_ret (a : A) : preserves I (ret a).
Proof. intros s r s' [= <- <-]. apply I_refl. Qed.

Lemma preserves_raise (e : exn) : preserves I (@raise A e).
Proof. intros s r s' [= <- <-]. apply I_refl. Qed.

Lemma preserves_lift (r : res A) : preserves I (lift r).
Proof. intros s r' s' [= <- <-]. apply I_refl. Qed.

Lemma preserves_bind (m : M A) (k : A -> M B) :
  preserves I m -> (forall a, preserves I (k a)) -> preserves I (bind m k).
Proof.
  intros Hm Hk s r s'. unfold bind.
  destruct (m s) as [[[a|e] s1]|] eqn:E; try discriminate.
  - intros H. eapply I_trans; [eapply Hm, E | eapply Hk, H].
  - intros [= <- <-]. eapply Hm, E.
Qed.

Lemma preserves_try (m : M A) (h : exn -> M A) :
  preserves I m -> (forall e, preserves I (h e)) ->
  preserves I (try_except_Exception m h).
Proof.
  intros Hm Hh s r s'. unfold try_except_Exception.
  destruct (m s) as [[[a|e] s1]|] eqn:E; try discriminate.
  - intros [= <- <-]. eapply Hm, E.
  - destruct (is_Exception e).
    + intros H. eapply I_trans; [eapply Hm, E | eapply Hh, H].
    + intros [= <- <-]. eapply Hm, E.
Qed.

End Rules.

Ltac total_step :=
  match goal with
  | |- total (bind _ _) => apply total_bind; [|intros]
  | |- total (try_except_Exception _ _) => apply total_try; [|intros]
  | |- total (ret _) => apply total_ret
  | |- total (raise _) => apply total_raise
  | |- total (lift _) => apply total_lift
  | |- total (if ?b then _ else _) => destruct b
  | |- total (match ?x with _ => _ end) => destruct x
  | |- total (let _ := _ in _) => cbv zeta
  end.

Ltac preserves_step rfl trs :=
  match goal with
  | |- preserves _ (bind _ _) => apply (preserves_bind _ trs); [|intros]
  | |- preserves _ (try_except_Exception _ _) =>
      apply (preserves_try _ trs); [|intros]
  | |- preserves _ (ret _) => apply (preserves_ret _ rfl)
  | |- preserves _ (raise _) => apply (preserves_raise _ rfl)
  | |- preserves _ (lift _) => apply (preserves_lift _ rfl)
  | |- preserves _ (if ?b then _ else _) => destruct b
  | |- preserves _ (match ?x with _ => _ end) => destruct x
  | |- preserves _ (let _ := _ in _) => cbv zeta
  end.

(** ** Primitive steps *)

Lemma same_launches_refl (s : state) : same_launches s s.
Proof. reflexivity. Qed.

Lemma same_launches_trans (a b c : state) :
  same_launches a b -> same_launches b c -> same_launches a c.
Proof. unfold same_launches. congruence. Qed.

Lemma same_files_refl (s : state) : same_files s s.
Proof. reflexivity. Qed.

Lemma same_files_trans (a b c : state) :
  same_files a b -> same_files b c -> same_files a c.
Proof. unfold same_files. congruence. Qed.

Lemma count_launches_app (t u : list event) :
  count_launches (t ++ u) = (count_launches t + count_launches u)%nat.
Proof.
  induction t as [|e t IH]; simpl; [reflexivity|]. destruct e; simpl; lia.
Qed.

Lemma count_sleeps_app (t u : list event) :
  count_sleeps (t ++ u) = (count_sleeps t + count_sleeps u)%nat.
Proof.
  induction t as [|e t IH]; simpl; [reflexivity|]. destruct e; simpl; lia.
Qed.

Lemma total_emit (e : event) : total (emit e).
Proof. intros s. unfold emit. eauto. Qed.

Lemma total_path_exists (path : string) : total (path_exists path).
Proof. intros s. unfold path_exists. eauto. Qed.

Lemma total_getsize (path : string) : total (getsize path).
Proof. intros s. unfold getsize. destruct (files s path); eauto. Qed.

Lemma total_open_wb (path : string) : total (open_wb path).
Proof. intros s. unfold open_wb. eauto. Qed.

Lemma total_write (path : string) (n : Z) : total (write path n).
Proof. intros s. unfold write. destruct (files s path); eauto. Qed.

Lemma total_write_chunks (path : string) (cs : list Z) :
  forall downloaded, total (write_chunks path cs downloaded).
Proof.
  induction cs as [|n cs IH]; intros d; simpl.
  - apply total_ret.
  - destruct (n =? 0); [apply IH|].
    apply total_bind; [apply total_write | intros; apply IH].
Qed.

Lemma total_save_body (path : string) (r : response) : total (save_body path r).
Proof.
  unfold save_body.
  repeat first [total_step | apply total_open_wb | apply total_write_chunks].
Qed.

Lemma total_get (w : World) (url : string) (params : list (string * string)) :
  total (get w url params).
Proof. unfold get. repeat first [total_step | apply total_emit]. Qed.

Lemma total_run_pip (w : World) : total (run_pip w).
Proof. unfold run_pip. repeat first [total_step | apply total_emit]. Qed.

Lemma total_run_gdown (w : World) (url out : string) : total (run_gdown w url out).
Proof.
  unfold run_gdown. apply total_bind; [apply total_emit|]. intros _ s.
  destruct (gdown w url out). eauto.
Qed.

Lemma total_raise_for_status (r : response) : total (raise_for_status r).
Proof. unfold raise_for_status. repeat total_step. Qed.

Lemma launches_emit (e : event) :
  count_launches [e] = O -> preserves same_launches (emit e).
Proof.
  intros He s r s' [= <- <-]. unfold same_launches. simpl.
  rewrite count_launches_app. lia.
Qed.

(** ** Invariants of the acquisition *)

(** Any relation between states that is reflexive and transitive, ignores
    the filesystem and admits the actions of the acquisition is kept by
    every download function. *)
Section Acquisition.

Variable I : state -> state -> Prop.
Hypothesis I_refl : forall s, I s s.
Hypothesis I_trans : forall a b c, I a b -> I b c -> I a c.
Hypothesis I_files : forall s f, I s {| files := f; trace := trace s |}.
Hypothesis I_event :
  forall s e, is_acquisition_event e = true ->
              I s {| files := files s; trace := trace s ++ [e] |}.

Lemma acq_emit (e : event) :
  is_acquisition_event e = true -> preserves I (emit e).
Proof. intros He s r s' [= <- <-]. now apply I_event. Qed.

Lemma acq_path_exists (path : string) : preserves I (path_exists path).
Proof. intros s r s' [= <- <-]. apply I_refl. Qed.

Lemma acq_getsize (path : string) : preserves I (getsize path).
Proof.
  intros s r s'. unfold getsize.
  destruct (files s path); intros [= <- <-]; apply I_refl.
Qed.

Lemma acq_open_wb (path : string) : preserves I (open_wb path).
Proof. intros s r s' [= <- <-]. apply I_files. Qed.

Lemma acq_write (path : string) (n : Z) : preserves I (write path n).
Proof.
  intros s r s'. unfold write.
  destruct (files s path); intros [= <- <-]; [apply I_files | apply I_refl].
Qed.

Ltac acq_step :=
  first
    [ preserves_step I_refl I_trans
    | apply acq_emit; reflexivity
    | apply acq_path_exists
    | apply acq_getsize
    | apply acq_open_wb
    | apply acq_write ].

Lemma acq_write_chunks (path : string) (cs : list Z) :
  forall downloaded, preserves I (write_chunks path cs downloaded).
Proof.
  induction cs as [|n cs IH]; intros d; simpl; repeat first [apply IH | acq_step].
Qed.

Lemma acq_save_body (path : string) (r : response) : preserves I (save_body path r).
Proof. unfold save_body. repeat first [apply acq_write_chunks | acq_step]. Qed.

Lemma acq_get (w : World) (url : string) (params : list (string * string)) :
  preserves I (get w url params).
Proof. unfold get. repeat acq_step. Qed.

Lemma acq_run_gdown (w : World) (url out : string) :
  preserves I (run_gdown w url out).
Proof.
  unfold run_gdown. apply (preserves_bind _ I_trans); [now apply acq_emit|].
  intros _ s r s'. destruct (gdown w url out) as [r0 fe].
  intros [= <- <-]. destruct fe; simpl; first [apply I_refl | apply I_files].
Qed.

Lemma acq_fallback (w : World) (file_id out : string) :
  preserves I (download_gdrive_alternative w file_id out).
Proof.
  unfold download_gdrive_alternative, run_pip.
  repeat first [apply acq_run_gdown | acq_step].
Qed.

(** The large-file strategy from its second request on. *)
Lemma acq_gdrive_from_second (w : World) (file_id out : string)
  (params : list (string * string)) :
  preserves I
    (try_except_Exception
       (response <- lift (http_get w base_url params) ;;
        let content_type :=
          match content_type response with Some v => v | None => "" end in
        if Py.contains "text/html" content_type then
          download_gdrive_alternative w file_id out
        else
          total_size <- lift (total_size_of response) ;;
          lift (size_status total_size) ;;;
          downloaded <- save_body out response ;;
          file_size <- getsize out ;;
          if file_size <? 10000 then
            download_gdrive_alternative w file_id out
          else ret true)
       (fun _ => download_gdrive_alternative w file_id out)).
Proof.
  repeat first [apply acq_fallback | apply acq_save_body | acq_step].
Qed.

Lemma acq_download_from_gdrive (w : World) (file_id out : string) :
  preserves I (download_from_gdrive w file_id out).
Proof.
  unfold download_from_gdrive, gdrive_attempt.
  repeat first [ apply acq_get | apply acq_fallback | apply acq_save_body
               | acq_step ].
Qed.

Lemma acq_download_direct (w : World) (self : streamer) (url : string) :
  preserves I (download_direct w self url).
Proof.
  unfold download_direct, direct_attempt, raise_for_status.
  repeat first [apply acq_get | apply acq_save_body | acq_step].
Qed.

Lemma acq_download_video (w : World) (self : streamer) :
  preserves I (download_video w self).
Proof.
  unfold download_video, download_drive.
  repeat first [ apply acq_download_from_gdrive | apply acq_download_direct
               | acq_step ].
Qed.

End Acquisition.

Lemma extends_refl (s : state) : extends s s.
Proof. exists []. now rewrite app_nil_r. Qed.

Lemma extends_trans (a b c : state) : extends a b -> extends b c -> extends a c.
Proof.
  intros [t Ht] [u Hu]. exists (t ++ u)%list. now rewrite Hu, Ht, app_assoc.
Qed.

Lemma launches_download_video (w : World) (self : streamer) :
  preserves same_launches (download_video w self).
Proof.
  apply acq_download_video.
  - apply same_launches_refl.
  - apply same_launches_trans.
  - reflexivity.
  - intros s e He. unfold same_launches. simpl. rewrite count_launches_app.
    destruct e; try discriminate; simpl; lia.
Qed.

Ltac launches_tac :=
  repeat first
    [ preserves_step same_launches_refl same_launches_trans
    | apply launches_emit; reflexivity ].

(** ** The fallback strategy *)

Lemma fallback_total (w : World) (file_id out : string) :
  total (download_gdrive_alternative w file_id out).
Proof.
  unfold download_gdrive_alternative.
  repeat first [ total_step | apply total_run_pip | apply total_run_gdown
               | apply total_path_exists | apply total_getsize ].
Qed.

Lemma fallback_contains_errors (w : World) (file_id out : string) :
  contains_errors (download_gdrive_alternative w file_id out).
Proof.
  apply contains_errors_try. intros e. apply contains_errors_ret.
Qed.

(** The fallback reports success only for a file above 10000 bytes. *)
Lemma fallback_accepts (w : World) (file_id out : string) (s s' : state) :
  download_gdrive_alternative w file_id out s = Some (Ret true, s') ->
  exists n, files s' out = Some n /\ 10000 < n.
Proof.
  unfold download_gdrive_alternative, run_pip, run_gdown, path_exists, getsize.
  unfold_monad. intros H.
  repeat (break_match; try discriminate; simpl in *; subst).
  all: repeat match goal with
       | H : Some _ = Some _ |- _ => injection H as ?; subst
       | H : (_, _) = (_, _) |- _ => injection H as ?; subst
       end; try discriminate.
  all: eexists; split; [eassumption | now apply Z.ltb_lt].
Qed.

(** A file of at most 10000 bytes left by the fallback is a failure (or the
    download was interrupted from the keyboard). *)
Lemma fallback_rejects (w : World) (file_id out : string) (s s' : state)
  (r : res bool) (n : Z) :
  download_gdrive_alternative w file_id out s = Some (r, s') ->
  files s' out = Some n ->
  n <= 10000 ->
  r = Ret false \/ r = Raise KeyboardInterrupt.
Proof.
  intros H Hf Hn. destruct r as [[|]|e].
  - apply fallback_accepts in H as [m [Hm Hlt]]. rewrite Hf in Hm.
    injection Hm as <-. lia.
  - now left.
  - apply fallback_contains_errors in H. destruct e; try discriminate. now right.
Qed.

(** Running the fallback inside the [try] of the primary strategy is the
    same as running it alone: it lets no error escape. *)
Lemma try_fallback (w : World) (file_id out : string) (s : state) :
  try_except_Exception
    (download_gdrive_alternative w file_id out)
    (fun _ => download_gdrive_alternative w file_id out) s
  = download_gdrive_alternative w file_id out s.
Proof.
  unfold try_except_Exception.
  destruct (download_gdrive_alternative w file_id out s) as [[[b|e] s1]|] eqn:E;
    try reflexivity.
  apply fallback_contains_errors in E. now rewrite E.
Qed.

(** ** Storing a response body *)

Lemma set_file_same (path : string) (v : option Z) (s : state) :
  files (set_file path v s) path = v.
Proof. simpl. now rewrite String.eqb_refl. Qed.

Lemma set_file_other (path p : string) (v : option Z) (s : state) :
  p <> path -> files (set_file path v s) p = files s p.
Proof. intros H. simpl. apply String.eqb_neq in H. now rewrite H. Qed.

Lemma write_chunks_result (path : string) (cs : list Z) :
  forall (downloaded : Z) (s : state) (a : Z),
    files s path = Some a ->
    exists s',
      write_chunks path cs downloaded s = Some (Ret (downloaded + body_size cs), s')
      /\ files s' path = Some (a + body_size cs)
      /\ (forall p, p <> path -> files s' p = files s p)
      /\ trace s' = trace s.
Proof.
  induction cs as [|n cs IH]; intros d s a Ha; simpl.
  - exists s. unfold ret. rewrite !Z.add_0_r. auto.
  - destruct (n =? 0) eqn:E.
    + apply Z.eqb_eq in E as ->. simpl. apply IH, Ha.
    + unfold bind, write. rewrite Ha.
      destruct (IH (d + n) (set_file path (Some (a + n)) s) (a + n))
        as [s' [H1 [H2 [H3 H4]]]]; [apply set_file_same|].
      exists s'. rewrite H1, H2, !Z.add_assoc. repeat split; try assumption.
      intros p Hp. rewrite (H3 p Hp). now apply set_file_other.
Qed.

Lemma save_body_result (path : string) (r : response) (s : state) :
  exists s',
    save_body path r s =
      Some (match chunks_exn r with
            | Some e => Raise e
            | None => Ret (body_size (chunks r))
            end, s')
    /\ files s' path = Some (body_size (chunks r))
    /\ (forall p, p <> path -> files s' p = files s p)
    /\ trace s' = trace s.
Proof.
  unfold save_body, bind, open_wb.
  destruct (write_chunks_result path (chunks r) 0 (set_file path (Some 0) s) 0)
    as [s' [H1 [H2 [H3 H4]]]]; [apply set_file_same|].
  exists s'. rewrite H1. simpl in *. split; [|repeat split; try assumption].
  - now destruct (chunks_exn r).
  - intros p Hp. rewrite (H3 p Hp). apply String.eqb_neq in Hp. now rewrite Hp.
Qed.

(** ** The large-file strategy *)

(** A transfer without incident: both requests answered, a token decided,
    a non-HTML answer, a readable length header whose size in MB can be
    computed, the body stored in full.
    The strategy then accepts the file or hands over to the fallback on
    its size alone. *)
Lemma gdrive_clean_transfer (w : World) (file_id out : string) (s : state)
  (r1 r2 : response) (token : option string) (total_size : Z) :
  http_get w base_url [("id", file_id)] = Ret r1 ->
  confirm_token r1 = Ret token ->
  http_get w base_url (second_params file_id token) = Ret r2 ->
  Py.contains "text/html"
    (match content_type r2 with Some v => v | None => "" end) = false ->
  total_size_of r2 = Ret total_size ->
  size_status total_size = Ret tt ->
  chunks_exn r2 = None ->
  exists s1,
    files s1 out = Some (body_size (chunks r2))
    /\ wrote_only out [EvGet base_url [("id", file_id)];
                       EvGet base_url (second_params file_id token)] s s1
    /\ download_from_gdrive w file_id out s =
         if body_size (chunks r2) <? 10000
         then download_gdrive_alternative w file_id out s1
         else Some (Ret true, s1).
Proof.
  intros H1 Ht H2 Hc Hl Hz Hx.
  unfold download_from_gdrive.
  set (s2 := {| files := files s;
                trace := (trace s ++ [EvGet base_url [("id", file_id)]])
                         ++ [EvGet base_url (second_params file_id token)] |}).
  destruct (save_body_result out r2 s2) as [s1 [Hs [Hf [Ho Htr]]]].
  rewrite Hx in Hs.
  exists s1. split; [assumption|]. split.
  - split; [intros p Hp; now rewrite (Ho p Hp) |].
    rewrite Htr. simpl. now rewrite <- app_assoc.
  - assert (E : gdrive_attempt w file_id out s =
                if body_size (chunks r2) <? 10000
                then download_gdrive_alternative w file_id out s1
                else Some (Ret true, s1)).
    { unfold gdrive_attempt, get. unfold_monad. simpl.
      rewrite H1, Ht. simpl. rewrite H2, Hc, Hl, Hz. fold s2.
      rewrite Hs. unfold getsize. rewrite Hf.
      now destruct (body_size (chunks r2) <? 10000). }
    destruct (body_size (chunks r2) <? 10000).
    + rewrite <- (try_fallback w file_id out s1).
      unfold try_except_Exception. now rewrite E.
    + unfold try_except_Exception. now rewrite E.
Qed.

Lemma total_download_from_gdrive (w : World) (file_id out : string) :
  total (download_from_gdrive w file_id out).
Proof.
  unfold download_from_gdrive, gdrive_attempt.
  repeat first [ total_step | apply total_get | apply fallback_total
               | apply total_save_body | apply total_getsize ].
Qed.

Lemma download_from_gdrive_contains_errors (w : World) (file_id out : string) :
  contains_errors (download_from_gdrive w file_id out).
Proof. apply contains_errors_try. intros e. apply fallback_contains_errors. Qed.

(** ** The direct strategy and [download_video] *)

Lemma total_download_direct (w : World) (self : streamer) (url : string) :
  total (download_direct w self url).
Proof.
  unfold download_direct, direct_attempt.
  repeat first [ total_step | apply total_get | apply total_raise_for_status
               | apply total_save_body ].
Qed.

Lemma download_direct_contains_errors (w : World) (self : streamer) (url : string) :
  contains_errors (download_direct w self url).
Proof. apply contains_errors_try. intros e. apply contains_errors_ret. Qed.

Lemma total_download_video (w : World) (self : streamer) :
  total (download_video w self).
Proof.
  unfold download_video, download_drive.
  repeat first [ total_step | apply total_download_from_gdrive
               | apply total_download_direct ].
Qed.

Lemma download_video_contains_errors (w : World) (self : streamer) (url : string) :
  video_url self = Some url -> contains_errors (download_video w self).
Proof.
  intros Hu. unfold download_video, download_drive. rewrite Hu.
  destruct (is_google_drive_url url); [|apply download_direct_contains_errors].
  destruct (extract_gdrive_id url) as [file_id|]; [|apply contains_errors_ret].
  destruct (Py.falsy (Some file_id));
    [apply contains_errors_ret | apply download_from_gdrive_contains_errors].
Qed.

(** ** The probe and the streaming loop *)

Lemma files_emit (e : event) : preserves same_files (emit e).
Proof. intros s r s' [= <- <-]. reflexivity. Qed.

Ltac files_tac :=
  repeat first
    [ preserves_step same_files_refl same_files_trans
    | apply files_emit ].

Lemma total_get_video_duration (w : World) (self : streamer) :
  total (get_video_duration w self).
Proof.
  unfold get_video_duration. repeat first [total_step | apply total_emit].
Qed.

Lemma files_get_video_duration (w : World) (self : streamer) :
  preserves same_files (get_video_duration w self).
Proof. unfold get_video_duration. files_tac. Qed.

Lemma get_video_duration_contains_errors (w : World) (self : streamer) :
  contains_errors (get_video_duration w self).
Proof. apply contains_errors_try. intros e. apply contains_errors_ret. Qed.

Lemma stream_session_cases (w : World) (cmd : list string) (attempt : Z) (s : state) :
  let s1 := {| files := files s;
               trace := trace s ++ [EvFfmpeg (attempt + 1) cmd] |} in
  stream_session w cmd attempt s =
    match ffmpeg w attempt cmd with
    | Raise KeyboardInterrupt => Some (Ret (Return true), s1)
    | _ => Some (Ret Continue, s1)
    end.
Proof.
  unfold stream_session. unfold_monad. simpl.
  destruct (ffmpeg w attempt cmd) as [c|e]; [reflexivity|]. now destruct e.
Qed.

Lemma do_sleep_cases (w : World) (attempt secs : Z) (s : state) :
  let s1 := {| files := files s; trace := trace s ++ [EvSleep secs] |} in
  do_sleep w attempt secs s =
    if sleep_interrupted w attempt then Some (Raise KeyboardInterrupt, s1)
    else Some (Ret tt, s1).
Proof.
  unfold do_sleep. unfold_monad. simpl. now destruct (sleep_interrupted w attempt).
Qed.

Lemma stream_loop_step (w : World) (fuel : nat) (self : streamer)
  (cmd : list string) (attempt : Z) (s : state) :
  attempt < 999 ->
  session_ends (ffmpeg w attempt cmd) ->
  sleep_interrupted w (attempt + 1) = false ->
  stream_loop w (S fuel) self cmd attempt s =
  stream_loop w fuel self cmd (attempt + 1)
    {| files := files s;
       trace := trace s ++ [EvFfmpeg (attempt + 1) cmd; EvSleep (retry_delay self)] |}.
Proof.
  intros Ha He Hs. simpl. apply Z.ltb_lt in Ha. rewrite Ha.
  unfold bind at 1. rewrite stream_session_cases.
  assert (E : match ffmpeg w attempt cmd with
              | Raise KeyboardInterrupt =>
                  Some (Ret (Return true),
                        {| files := files s;
                           trace := trace s ++ [EvFfmpeg (attempt + 1) cmd] |})
              | _ => Some (Ret Continue,
                           {| files := files s;
                              trace := trace s ++ [EvFfmpeg (attempt + 1) cmd] |})
              end
              = Some (Ret Continue,
                      {| files := files s;
                         trace := trace s ++ [EvFfmpeg (attempt + 1) cmd] |})).
  { destruct (ffmpeg w attempt cmd) as [c|e]; [reflexivity|].
    destruct e; try reflexivity. discriminate He. }
  rewrite E. unfold bind. rewrite do_sleep_cases, Hs. simpl.
  now rewrite <- app_assoc.
Qed.

(** [n] sessions that end, each followed by an undisturbed pause, move the
    loop [n] passes forward and leave exactly their actions in the trace. *)
Lemma stream_loop_sessions (w : World) (self : streamer) (cmd : list string) :
  forall (n fuel : nat) (attempt : Z) (s : state),
    (forall k, attempt <= k < attempt + Z.of_nat n -> session_ends (ffmpeg w k cmd)) ->
    (forall k, attempt < k <= attempt + Z.of_nat n -> sleep_interrupted w k = false) ->
    attempt + Z.of_nat n <= 999 ->
    stream_loop w (n + fuel) self cmd attempt s =
    stream_loop w fuel self cmd (attempt + Z.of_nat n)
      {| files := files s;
         trace := trace s ++ sessions_trace cmd (retry_delay self) attempt n |}.
Proof.
  induction n as [|n IH]; intros fuel a s He Hs Hb.
  - simpl. rewrite Z.add_0_r, app_nil_r. now destruct s.
  - replace (S n + fuel)%nat with (S (n + fuel)) by lia.
    rewrite stream_loop_step; [| lia | apply He; lia | apply Hs; lia].
    rewrite IH; [| intros; apply He; lia | intros; apply Hs; lia | lia].
    simpl. rewrite <- app_assoc. simpl.
    replace (a + 1 + Z.of_nat n) with (a + Z.pos (Pos.of_succ_nat n)) by lia.
    reflexivity.
Qed.

Lemma stream_loop_interrupted (w : World) (fuel : nat) (self : streamer)
  (cmd : list string) (attempt : Z) (s : state) :
  attempt < 999 ->
  ffmpeg w attempt cmd = Raise KeyboardInterrupt ->
  stream_loop w (S fuel) self cmd attempt s =
  Some (Ret true,
        {| files := files s; trace := trace s ++ [EvFfmpeg (attempt + 1) cmd] |}).
Proof.
  intros Ha He. simpl. apply Z.ltb_lt in Ha. rewrite Ha.
  unfold bind. now rewrite stream_session_cases, He.
Qed.

Lemma stream_loop_ceiling (w : World) (fuel : nat) (self : streamer)
  (cmd : list string) (attempt : Z) (s : state) :
  999 <= attempt ->
  stream_loop w fuel self cmd attempt s = Some (Ret true, s).
Proof.
  intros Ha. apply Z.ltb_ge in Ha. destruct fuel; simpl; now rewrite Ha.
Qed.

(** With fuel for every remaining pass the loop ends: it returns [True] or
    is interrupted during a pause, keeps the files, and launches the
    encoder at most once per remaining value of [attempt]. *)
Lemma stream_loop_outcome (w : World) (self : streamer) (cmd : list string) :
  forall (fuel : nat) (attempt : Z) (s : state),
    999 - attempt <= Z.of_nat fuel ->
    exists r s',
      stream_loop w fuel self cmd attempt s = Some (r, s')
      /\ (r = Ret true \/ r = Raise KeyboardInterrupt)
      /\ files s' = files s
      /\ Z.of_nat (count_launches (trace s'))
         <= Z.of_nat (count_launches (trace s)) + Z.max 0 (999 - attempt).
Proof.
  induction fuel as [|fuel IH]; intros a s Hf.
  - exists (Ret true), s. rewrite stream_loop_ceiling by lia.
    repeat split; [now left | lia].
  - destruct (Z.lt_ge_cases a 999) as [Ha|Ha].
    2:{ exists (Ret true), s. rewrite stream_loop_ceiling by lia.
        repeat split; [now left | lia]. }
    simpl. pose proof Ha as Hb. apply Z.ltb_lt in Hb. rewrite Hb.
    unfold bind at 1. rewrite stream_session_cases.
    set (s1 := {| files := files s; trace := trace s ++ [EvFfmpeg (a + 1) cmd] |}).
    assert (L1 : count_launches (trace s1) = S (count_launches (trace s))).
    { simpl. rewrite count_launches_app. simpl. lia. }
    assert (Stop : exists r s',
               Some (Ret true, s1) = Some (r, s')
               /\ (r = Ret true \/ r = Raise KeyboardInterrupt)
               /\ files s' = files s
               /\ Z.of_nat (count_launches (trace s'))
                  <= Z.of_nat (count_launches (trace s)) + Z.max 0 (999 - a)).
    { exists (Ret true), s1. repeat split; [now left | lia]. }
    assert (Go : exists r s',
               (do_sleep w (a + 1) (retry_delay self) ;;;
                stream_loop w fuel self cmd (a + 1)) s1 = Some (r, s')
               /\ (r = Ret true \/ r = Raise KeyboardInterrupt)
               /\ files s' = files s
               /\ Z.of_nat (count_launches (trace s'))
                  <= Z.of_nat (count_launches (trace s)) + Z.max 0 (999 - a)).
    { unfold bind. rewrite do_sleep_cases.
      set (s2 := {| files := files s1;
                    trace := trace s1 ++ [EvSleep (retry_delay self)] |}).
      assert (L2 : count_launches (trace s2) = S (count_launches (trace s))).
      { change (trace s2) with (trace s1 ++ [EvSleep (retry_delay self)])%list.
        rewrite count_launches_app, L1. simpl. lia. }
      destruct (sleep_interrupted w (a + 1)).
      - exists (Raise KeyboardInterrupt), s2. repeat split; [now right | lia].
      - destruct (IH (a + 1) s2) as [r [s' [E [Hr [Hfi Hl]]]]]; [lia|].
        exists r, s'. repeat split; try assumption. lia. }
    destruct (ffmpeg w a cmd) as [c|e]; [exact Go|].
    destruct e; first [exact Go | exact Stop].
Qed.

(** ** [start_streaming], [run] and [main] *)

Lemma str_int_error (z : Z) (e : exn) :
  Py.str_int z = Raise e -> e = ValueError.
Proof.
  unfold Py.str_int. destruct (_ <? _); [|discriminate]. now intros [= <-].
Qed.

(** The line with the resolution fails only with a [ValueError]. *)
Lemma resolution_text_error (p : plan) (e : exn) :
  resolution_text p = Raise e -> is_Exception e = true.
Proof.
  unfold resolution_text.
  destruct (Py.str_int (width p)) as [a|e1] eqn:A; cbn [res_bind].
  - destruct (Py.str_int (height p)) as [b|e2] eqn:B; cbn [res_bind];
      [discriminate|].
    intros [= <-]. now rewrite (str_int_error _ _ B).
  - intros [= <-]. now rewrite (str_int_error _ _ A).
Qed.

Lemma start_streaming_plan (w : World) (self : streamer) (p : plan)
  (text : string) (s : state) :
  encoding_plan (quality self) (aspect_ratio self) = Ret p ->
  resolution_text p = Ret text ->
  start_streaming w self s = stream_loop w 999 self (ffmpeg_cmd self p) 0 s.
Proof. intros H T. unfold start_streaming, bind, lift. now rewrite H, T. Qed.

Lemma start_streaming_no_text (w : World) (self : streamer) (p : plan)
  (e : exn) (s : state) :
  encoding_plan (quality self) (aspect_ratio self) = Ret p ->
  resolution_text p = Raise e ->
  start_streaming w self s = Some (Raise e, s).
Proof. intros H T. unfold start_streaming, bind, lift. now rewrite H, T. Qed.

Lemma start_streaming_no_plan (w : World) (self : streamer) (e : exn) (s : state) :
  encoding_plan (quality self) (aspect_ratio self) = Raise e ->
  start_streaming w self s = Some (Raise e, s).
Proof. intros H. unfold start_streaming, bind, lift. now rewrite H. Qed.

Lemma start_streaming_outcome (w : World) (self : streamer) (s : state) :
  exists r s',
    start_streaming w self s = Some (r, s')
    /\ files s' = files s
    /\ Z.of_nat (count_launches (trace s'))
       <= Z.of_nat (count_launches (trace s)) + 999
    /\ match encoding_plan (quality self) (aspect_ratio self) with
       | Ret p =>
           match resolution_text p with
           | Ret _ => r = Ret true \/ r = Raise KeyboardInterrupt
           | Raise e => r = Raise e /\ s' = s
           end
       | Raise e => r = Raise e /\ s' = s
       end.
Proof.
  destruct (encoding_plan (quality self) (aspect_ratio self)) as [p|e] eqn:E.
  - destruct (resolution_text p) as [text|e] eqn:T.
    + rewrite (start_streaming_plan w self p text s E T).
      destruct (stream_loop_outcome w self (ffmpeg_cmd self p) 999 0 s)
        as [r [s' [H [Hr [Hf Hl]]]]]; [lia|].
      exists r, s'. split; [assumption|]. split; [assumption|].
      split; [lia | assumption].
    + rewrite (start_streaming_no_text w self p e s E T).
      exists (Raise e), s. split; [reflexivity|]. split; [reflexivity|].
      split; [lia | now split].
  - rewrite (start_streaming_no_plan w self e s E).
    exists (Raise e), s. split; [reflexivity|]. split; [reflexivity|].
    split; [lia | now split].
Qed.

Lemma total_start_streaming (w : World) (self : streamer) :
  total (start_streaming w self).
Proof.
  intros s. destruct (start_streaming_outcome w self s) as [r [s' [H _]]]. eauto.
Qed.

Lemma total_run (w : World) (self : streamer) : total (run w self).
Proof.
  unfold run.
  repeat first [ total_step | apply total_download_video | apply total_path_exists
               | apply total_getsize | apply total_get_video_duration
               | apply total_start_streaming ].
Qed.

Lemma launches_get_video_duration (w : World) (self : streamer) :
  preserves same_launches (get_video_duration w self).
Proof. unfold get_video_duration. launches_tac. Qed.

(** What [run] does once the configuration is complete and the download
    reported success with a file of [n] bytes in place. *)
Lemma run_after_download (w : World) (self : streamer) (s s1 : state) (n : Z) :
  Py.falsy (stream_key self) = false ->
  Py.falsy (video_url self) = false ->
  download_video w self s = Some (Ret true, s1) ->
  files s1 (video_file self) = Some n ->
  run w self s =
    if n <? 10000 then Some (Ret false, s1)
    else (get_video_duration w self ;;; start_streaming w self ;;; ret true) s1.
Proof.
  intros Hk Hu Hd Hf. unfold run, bind, path_exists, getsize.
  rewrite Hk, Hu, Hd. cbn [negb]. rewrite Hf. cbn [negb]. rewrite Hf.
  now destruct (n <? 10000).
Qed.

Lemma run_download_failed (w : World) (self : streamer) (s s1 : state) :
  download_video w self s = Some (Ret false, s1) ->
  run w self s = Some (Ret false, if Py.falsy (stream_key self) then s
                                  else if Py.falsy (video_url self) then s else s1).
Proof.
  intros Hd. unfold run.
  destruct (Py.falsy (stream_key self)); [reflexivity|].
  destruct (Py.falsy (video_url self)); [reflexivity|].
  unfold bind. now rewrite Hd.
Qed.

Lemma run_file_missing (w : World) (self : streamer) (s s1 : state) :
  Py.falsy (stream_key self) = false ->
  Py.falsy (video_url self) = false ->
  download_video w self s = Some (Ret true, s1) ->
  files s1 (video_file self) = None ->
  run w self s = Some (Ret false, s1).
Proof.
  intros Hk Hu Hd Hf. unfold run, bind, path_exists.
  rewrite Hk, Hu, Hd. cbn [negb]. now rewrite Hf.
Qed.

(** The encoder is only ever launched on a file of at least 10000 bytes. *)
Lemma run_launch_integrity (w : World) (self : streamer) (s s' : state)
  (r : res bool) :
  run w self s = Some (r, s') ->
  count_launches (trace s') <> count_launches (trace s) ->
  exists n, files s' (video_file self) = Some n /\ 10000 <= n.
Proof.
  intros H Hl.
  destruct (Py.falsy (stream_key self)) eqn:Hk.
  { unfold run in H. rewrite Hk in H. injection H as <- <-. now elim Hl. }
  destruct (Py.falsy (video_url self)) eqn:Hu.
  { unfold run in H. rewrite Hk, Hu in H. injection H as <- <-. now elim Hl. }
  destruct (total_download_video w self s) as [rd [s1 Hd]].
  pose proof (launches_download_video w self s rd s1 Hd) as L1.
  unfold same_launches in L1.
  destruct rd as [[|]|e].
  - destruct (files s1 (video_file self)) as [n|] eqn:Hf.
    + rewrite (run_after_download w self s s1 n Hk Hu Hd Hf) in H.
      destruct (n <? 10000) eqn:Hn.
      * injection H as <- <-. now elim Hl.
      * apply Z.ltb_ge in Hn. unfold bind in H.
        destruct (get_video_duration w self s1) as [[[d|e] s2]|] eqn:Hg;
          try discriminate.
        -- pose proof (files_get_video_duration w self s1 _ s2 Hg) as F2.
           destruct (start_streaming_outcome w self s2) as [r3 [s3 [H3 [F3 _]]]].
           rewrite H3 in H. exists n. split; [|assumption].
           unfold same_files in F2.
           destruct r3; injection H as <- <-; now rewrite F3, F2.
        -- injection H as <- <-.
           pose proof (launches_get_video_duration w self s1 _ s2 Hg) as L2.
           unfold same_launches in L2. elim Hl. congruence.
    + rewrite (run_file_missing w self s s1 Hk Hu Hd Hf) in H.
      injection H as <- <-. now elim Hl.
  - rewrite (run_download_failed w self s s1 Hd), Hk, Hu in H.
    injection H as <- <-. now elim Hl.
  - unfold run in H. rewrite Hk, Hu in H. unfold bind in H. rewrite Hd in H.
    injection H as <- <-. now elim Hl.
Qed.

(** ** URL classifier *)

Lemma search_nonempty (cls : ascii -> bool) (lit url g : string) :
  Re.search cls lit url = Some g -> g <> "".
Proof.
  intros H. apply search_some in H as [pre [[post [_ [Hne _]]] _]]. exact Hne.
Qed.

Lemma first_match_sound (url : string) (pats : list string) (g : string) :
  first_match pats url = Some g ->
  exists before lit after,
    pats = (before ++ lit :: after)%list
    /\ (forall lit', In lit' before -> no_match Re.is_id_char lit' url)
    /\ leftmost_match Re.is_id_char lit url g.
Proof.
  induction pats as [|p pats IH]; simpl; [discriminate|].
  destruct (Re.search Re.is_id_char p url) as [g0|] eqn:E.
  - intros [= <-]. exists [], p, pats. split; [reflexivity|].
    split; [intros lit' []|]. now apply search_some.
  - intros H. destruct (IH H) as [before [lit [after [-> [Hb Hm]]]]].
    exists (p :: before), lit, after. split; [reflexivity|]. split; [|assumption].
    intros lit' [<-|Hin]; [now apply search_none | now apply Hb].
Qed.

Lemma extract_gdrive_id_nonempty (url file_id : string) :
  extract_gdrive_id url = Some file_id -> Py.falsy (Some file_id) = false.
Proof.
  intros H. apply first_match_sound in H as [_ [lit [_ [_ [_ Hm]]]]].
  apply search_some, search_nonempty in Hm. now destruct file_id.
Qed.

(** C7.  [extract_gdrive_id] tries the four patterns in their fixed order.
    If a pattern matches the URL and none of the patterns before it does,
    the result is exactly the identifier embedded at the leftmost match of
    that pattern (the maximal run of identifier characters after the
    literal); if no pattern matches the result is [None]; and every result
    arises in this way. *)
Theorem extract_gdrive_id_first_pattern (url : string) :
  (forall before lit after g,
      patterns = (before ++ lit :: after)%list ->
      (forall lit', In lit' before -> no_match Re.is_id_char lit' url) ->
      leftmost_match Re.is_id_char lit url g ->
      extract_gdrive_id url = Some g)
  /\ ((forall lit, In lit patterns -> no_match Re.is_id_char lit url) ->
      extract_gdrive_id url = None)
  /\ (forall g,
      extract_gdrive_id url = Some g ->
      exists before lit after,
        patterns = (before ++ lit :: after)%list
        /\ (forall lit', In lit' before -> no_match Re.is_id_char lit' url)
        /\ leftmost_match Re.is_id_char lit url g).
Proof.
  unfold extract_gdrive_id. split; [|split].
  - apply first_match_spec.
  - apply first_match_spec.
  - intros g. apply first_match_sound.
Qed.

(** The second pattern wins on a URL of the query-parameter form, where
    the first pattern has no match. *)
Lemma extract_gdrive_id_first_pattern_witness :
  extract_gdrive_id "https://drive.google.com/uc?export=download&id=1aB_c-9Z&x=1"
  = Some "1aB_c-9Z".
Proof.
  apply (proj1 (extract_gdrive_id_first_pattern
                  "https://drive.google.com/uc?export=download&id=1aB_c-9Z&x=1")
           ["/file/d/"] "id=" ["/open?id="; "/d/"] "1aB_c-9Z").
  - reflexivity.
  - intros lit' [<-|[]]. apply search_none. reflexivity.
  - apply search_some. reflexivity.
Defined.

(** C10.  [is_google_drive_url] is a substring test on the whole URL: any
    URL in which one of the two domain texts occurs anywhere is classified
    as a large-file-host URL and [download_video] takes the large-file
    path (the identifier is extracted and [download_from_gdrive] runs, or
    the download fails when no identifier is found); a URL in which
    neither occurs is classified as direct and downloaded directly. *)
Theorem is_google_drive_url_substring (url : string) :
  (occurs "drive.google.com" url \/ occurs "docs.google.com" url ->
   is_google_drive_url url = true
   /\ forall w self s,
        video_url self = Some url ->
        download_video w self s =
          match extract_gdrive_id url with
          | Some file_id => download_from_gdrive w file_id (video_file self) s
          | None => Some (Ret false, s)
          end)
  /\ (~ occurs "drive.google.com" url -> ~ occurs "docs.google.com" url ->
      is_google_drive_url url = false
      /\ forall w self s,
           video_url self = Some url ->
           download_video w self s = download_direct w self url s).
Proof.
  split.
  - intros H.
    assert (E : is_google_drive_url url = true).
    { unfold is_google_drive_url. apply orb_true_iff.
      destruct H as [H|H]; [left | right]; now apply contains_spec. }
    split; [exact E|]. intros w self s Hu.
    unfold download_video, download_drive. rewrite Hu, E.
    destruct (extract_gdrive_id url) as [file_id|] eqn:X; [|reflexivity].
    now rewrite (extract_gdrive_id_nonempty url file_id X).
  - intros H1 H2.
    assert (E : is_google_drive_url url = false).
    { unfold is_google_drive_url. apply orb_false_iff.
      split; now apply contains_false_spec. }
    split; [exact E|]. intros w self s Hu.
    unfold download_video. now rewrite Hu, E.
Qed.

(** The domain text in the path of another host is enough. *)
Lemma is_google_drive_url_substring_witness :
  is_google_drive_url "https://mirror.example.org/docs.google.com/file/d/abc123/view" = true
  /\ forall w self s,
       video_url self = Some "https://mirror.example.org/docs.google.com/file/d/abc123/view" ->
       download_video w self s =
         match extract_gdrive_id "https://mirror.example.org/docs.google.com/file/d/abc123/view" with
         | Some file_id => download_from_gdrive w file_id (video_file self) s
         | None => Some (Ret false, s)
         end.
Proof.
  apply (proj1 (is_google_drive_url_substring
                  "https://mirror.example.org/docs.google.com/file/d/abc123/view")).
  right. exists "https://mirror.example.org/", "/file/d/abc123/view". reflexivity.
Defined.

(** ** Exceptions during the acquisition *)

Lemma direct_trace (w : World) (self : streamer) (url : string) (s : state)
  (r : res bool) (s' : state) :
  direct_attempt w self url s = Some (r, s') ->
  trace s' = (trace s ++ [EvGet url []])%list.
Proof.
  unfold direct_attempt, get, raise_for_status. unfold_monad. simpl.
  destruct (http_get w url []) as [resp|e]; [|now intros [= <- <-]].
  destruct ((400 <=? status_code resp) && (status_code resp <? 600));
    [now intros [= <- <-]|].
  destruct (total_size_of resp) as [n|e]; [|now intros [= <- <-]].
  destruct (save_body_result (video_file self) resp
              {| files := files s; trace := trace s ++ [EvGet url []] |})
    as [s1 [Hs [_ [_ Ht]]]].
  rewrite Hs. destruct (chunks_exn resp); intros [= <- <-]; exact Ht.
Qed.

(** C5, as the code has it.  In the large-file strategy every error (a
    subclass of [Exception]) raised inside the [try] block, be it by the
    first request, by the reading of the page during the token handshake
    or by the second request, is caught and hands over to the fallback,
    and no error escapes the strategy.  In the direct strategy every such
    error is caught as well, but the download then fails without the
    fallback: the only external action is the one request.  No error
    escapes [download_video] for a configured URL. *)
Theorem transport_errors_are_contained :
  (forall w file_id out s e s1,
      gdrive_attempt w file_id out s = Some (Raise e, s1) ->
      is_Exception e = true ->
      download_from_gdrive w file_id out s =
      download_gdrive_alternative w file_id out s1)
  /\ (forall w file_id out s e,
      http_get w base_url [("id", file_id)] = Raise e ->
      is_Exception e = true ->
      download_from_gdrive w file_id out s =
      download_gdrive_alternative w file_id out
        {| files := files s;
           trace := trace s ++ [EvGet base_url [("id", file_id)]] |})
  /\ (forall w file_id out s r1 e,
      http_get w base_url [("id", file_id)] = Ret r1 ->
      confirm_token r1 = Raise e ->
      is_Exception e = true ->
      download_from_gdrive w file_id out s =
      download_gdrive_alternative w file_id out
        {| files := files s;
           trace := trace s ++ [EvGet base_url [("id", file_id)]] |})
  /\ (forall w file_id out s r1 token e,
      http_get w base_url [("id", file_id)] = Ret r1 ->
      confirm_token r1 = Ret token ->
      http_get w base_url (second_params file_id token) = Raise e ->
      is_Exception e = true ->
      download_from_gdrive w file_id out s =
      download_gdrive_alternative w file_id out
        {| files := files s;
           trace := (trace s ++ [EvGet base_url [("id", file_id)]])
                    ++ [EvGet base_url (second_params file_id token)] |})
  /\ (forall w file_id out s e s',
      download_from_gdrive w file_id out s = Some (Raise e, s') ->
      is_Exception e = false)
  /\ (forall w self url s e s1,
      direct_attempt w self url s = Some (Raise e, s1) ->
      is_Exception e = true ->
      download_direct w self url s = Some (Ret false, s1)
      /\ trace s1 = (trace s ++ [EvGet url []])%list)
  /\ (forall w self url s e s',
      video_url self = Some url ->
      download_video w self s = Some (Raise e, s') ->
      is_Exception e = false).
Proof.
  assert (Caught : forall w file_id out s e s1,
             gdrive_attempt w file_id out s = Some (Raise e, s1) ->
             is_Exception e = true ->
             download_from_gdrive w file_id out s =
             download_gdrive_alternative w file_id out s1).
  { intros w file_id out s e s1 H He.
    unfold download_from_gdrive, try_except_Exception. now rewrite H, He. }
  split; [exact Caught|]. repeat split.
  - intros w file_id out s e H He. apply (Caught w file_id out s e); [|exact He].
    unfold gdrive_attempt, get. unfold_monad. simpl. now rewrite H.
  - intros w file_id out s r1 e H1 Ht He.
    apply (Caught w file_id out s e); [|exact He].
    unfold gdrive_attempt, get. unfold_monad. simpl. now rewrite H1, Ht.
  - intros w file_id out s r1 token e H1 Ht H2 He.
    apply (Caught w file_id out s e); [|exact He].
    unfold gdrive_attempt, get. unfold_monad. simpl. rewrite H1, Ht. simpl.
    now rewrite H2.
  - intros w file_id out s e s'. apply download_from_gdrive_contains_errors.
  - unfold download_direct, try_except_Exception. now rewrite H, H0.
  - eapply direct_trace, H.
  - intros w self url s e s' Hu. now apply (download_video_contains_errors w self url).
Qed.

(** An unreachable Drive host: the error of the first request starts the
    fallback. *)
Lemma transport_errors_are_contained_witness :
  let w := Examples.unreachable_world in
  download_from_gdrive w "F1-x" "video.mp4" initial_state =
  download_gdrive_alternative w "F1-x" "video.mp4"
    {| files := files initial_state;
       trace := trace initial_state ++ [EvGet base_url [("id", "F1-x")]] |}.
Proof.
  intros w.
  apply (proj1 (proj2 transport_errors_are_contained) w "F1-x" "video.mp4"
           initial_state RequestException); reflexivity.
Defined.

(** C5 as stated fails for the direct strategy: the server of a direct URL
    cannot be reached, the error is caught, and the download fails with no
    action of the fallback in the trace. *)
Lemma transport_error_fallback_counterexample :
  ~ (forall w self url s e s1 r s',
        direct_attempt w self url s = Some (Raise e, s1) ->
        is_Exception e = true ->
        download_video w self s = Some (r, s') ->
        existsb is_fallback_event (trace s') = true).
Proof.
  intros H.
  specialize (H Examples.unreachable_world (init Examples.unreachable_world)
                Examples.direct_url initial_state RequestException
                {| files := files initial_state;
                   trace := [EvGet Examples.direct_url []] |}
                (Ret false)
                {| files := files initial_state;
                   trace := [EvGet Examples.direct_url []] |}
                eq_refl eq_refl eq_refl).
  discriminate H.
Qed.

(** ** The confirmation token *)

Lemma extends_download_from_second (w : World) (file_id out : string)
  (params : list (string * string)) :
  preserves extends
    (try_except_Exception
       (response <- lift (http_get w base_url params) ;;
        let content_type :=
          match content_type response with Some v => v | None => "" end in
        if Py.contains "text/html" content_type then
          download_gdrive_alternative w file_id out
        else
          total_size <- lift (total_size_of response) ;;
          lift (size_status total_size) ;;;
          downloaded <- save_body out response ;;
          file_size <- getsize out ;;
          if file_size <? 10000 then
            download_gdrive_alternative w file_id out
          else ret true)
       (fun _ => download_gdrive_alternative w file_id out)).
Proof.
  apply acq_gdrive_from_second.
  - apply extends_refl.
  - apply extends_trans.
  - intros s f. exists []. simpl. now rewrite app_nil_r.
  - intros s e _. now exists [e].
Qed.

(** Once a token is decided, the second request carries it. *)
Lemma second_request_carries_token (w : World) (file_id out : string)
  (s : state) (r1 : response) (token : option string) (r : res bool) (s' : state) :
  http_get w base_url [("id", file_id)] = Ret r1 ->
  confirm_token r1 = Ret token ->
  download_from_gdrive w file_id out s = Some (r, s') ->
  exists rest,
    trace s' = (trace s ++ EvGet base_url [("id", file_id)]
                        :: EvGet base_url (second_params file_id token)
                        :: rest)%list.
Proof.
  intros H1 Ht H.
  set (s2 := {| files := files s;
                trace := (trace s ++ [EvGet base_url [("id", file_id)]])
                         ++ [EvGet base_url (second_params file_id token)] |}).
  assert (E : exists m, preserves extends m
                        /\ download_from_gdrive w file_id out s = m s2).
  { eexists. split;
      [apply (extends_download_from_second w file_id out
                (second_params file_id token))|].
    unfold download_from_gdrive, gdrive_attempt, get. unfold_monad. simpl.
    rewrite H1, Ht. reflexivity. }
  destruct E as [m [Hm E]]. rewrite E in H.
  destruct (Hm s2 r s' H) as [rest Hr]. exists rest. rewrite Hr. simpl.
  now rewrite <- !app_assoc.
Qed.

(** C8, as the code has it.  When the first cookie whose name starts with
    [download_warning] has a non-empty value, that value is the token: the
    page text is not consulted (whatever it is) and the second request
    carries the cookie value.  The page is searched exactly when no cookie
    has that prefix or the first such cookie has an empty value, and a
    token found there is then the one sent. *)
Theorem cookie_token_priority :
  (forall w file_id out s r1 v,
      http_get w base_url [("id", file_id)] = Ret r1 ->
      cookie_token (cookies r1) = Some v ->
      v <> "" ->
      confirm_token r1 = Ret (Some v)
      /\ forall r s',
           download_from_gdrive w file_id out s = Some (r, s') ->
           exists rest,
             trace s' = (trace s ++ EvGet base_url [("id", file_id)]
                                 :: EvGet base_url [("id", file_id); ("confirm", v)]
                                 :: rest)%list)
  /\ (forall w file_id out s r1 content b,
      http_get w base_url [("id", file_id)] = Ret r1 ->
      Py.falsy (cookie_token (cookies r1)) = true ->
      text r1 = Ret content ->
      Re.search Re.is_token_char "confirm=" content = Some b ->
      confirm_token r1 = Ret (Some b)
      /\ forall r s',
           download_from_gdrive w file_id out s = Some (r, s') ->
           exists rest,
             trace s' = (trace s ++ EvGet base_url [("id", file_id)]
                                 :: EvGet base_url [("id", file_id); ("confirm", b)]
                                 :: rest)%list).
Proof.
  split.
  - intros w file_id out s r1 v H1 Hc Hv.
    assert (Ht : confirm_token r1 = Ret (Some v)).
    { unfold confirm_token. rewrite Hc. destruct v; [now elim Hv | reflexivity]. }
    split; [exact Ht|]. intros r s' H.
    destruct (second_request_carries_token w file_id out s r1 (Some v) r s' H1 Ht H)
      as [rest Hr].
    exists rest. rewrite Hr. destruct v; [now elim Hv | reflexivity].
  - intros w file_id out s r1 content b H1 Hc Hx Hb.
    assert (Ht : confirm_token r1 = Ret (Some b)).
    { unfold confirm_token. rewrite Hc, Hx. simpl. now rewrite Hb. }
    split; [exact Ht|]. intros r s' H.
    destruct (second_request_carries_token w file_id out s r1 (Some b) r s' H1 Ht H)
      as [rest Hr].
    exists rest. rewrite Hr. apply search_nonempty in Hb.
    destruct b; [now elim Hb | reflexivity].
Qed.

(** A warning cookie with a value beats the token of the page. *)
Lemma cookie_token_priority_witness :
  let w := Examples.drive_world Examples.cookie_page [20000] 50000 0 in
  confirm_token Examples.cookie_page = Ret (Some "COOKIE")
  /\ forall r s',
       download_from_gdrive w "F1-x" "video.mp4" initial_state = Some (r, s') ->
       exists rest,
         trace s' = (trace initial_state
                     ++ EvGet base_url [("id", "F1-x")]
                     :: EvGet base_url [("id", "F1-x"); ("confirm", "COOKIE")]
                     :: rest)%list.
Proof.
  intros w.
  apply (proj1 cookie_token_priority w "F1-x" "video.mp4" initial_state
           Examples.cookie_page "COOKIE"); [reflexivity | reflexivity | discriminate].
Defined.

(** C8 as stated fails: the answer carries a warning cookie with the value
    COOKIE and a page with the token BODY, yet the second request is made
    with BODY, because an earlier warning cookie has an empty value. *)
Lemma cookie_token_priority_counterexample :
  ~ (forall w file_id out s r1 content b r s',
        http_get w base_url [("id", file_id)] = Ret r1 ->
        (exists key value,
            In (key, value) (cookies r1)
            /\ Py.startswith key "download_warning" = true
            /\ value <> "") ->
        text r1 = Ret content ->
        Re.search Re.is_token_char "confirm=" content = Some b ->
        download_from_gdrive w file_id out s = Some (r, s') ->
        exists key value,
          In (key, value) (cookies r1)
          /\ Py.startswith key "download_warning" = true
          /\ In (EvGet base_url [("id", file_id); ("confirm", value)]) (trace s')).
Proof.
  intros H.
  edestruct (H (Examples.drive_world Examples.warning_page [20000] 50000 0)
               "F1-x" "video.mp4" initial_state Examples.warning_page
               "<a href=/uc?export=download&confirm=BODY&id=F1-x>" "BODY")
    as [key [value [Hin [Hp Hev]]]].
  - reflexivity.
  - exists "download_warning_2", "COOKIE".
    split; [simpl; tauto | split; [reflexivity | discriminate]].
  - reflexivity.
  - reflexivity.
  - vm_compute. reflexivity.
  - simpl in Hin, Hev.
    destruct Hin as [E|[E|[E|[]]]]; injection E as <- <-;
      try discriminate Hp;
      destruct Hev as [E|[E|[]]]; discriminate E.
Qed.

(** ** The restart loop *)

Lemma count_sessions (cmd : list string) (delay : Z) (n : nat) :
  forall first,
    count_launches (sessions_trace cmd delay first n) = n
    /\ count_sleeps (sessions_trace cmd delay first n) = n.
Proof.
  induction n as [|n IH]; intros first; simpl; [now split|].
  destruct (IH (first + 1)) as [-> ->]. now split.
Qed.

(** C2, as the code has it.  With the encoding plan derived and its
    resolution printed, let the encoder end [N] times in a row ([N] below
    999, any return codes), let each of the [N] pauses run to its end, and
    let the interrupt from the keyboard arrive while the encoder runs for
    the [N + 1]-th time.  [start_streaming] launches the encoder [N + 1]
    times, numbered 1 to [N + 1], pauses 5 seconds after each of the first
    [N] sessions, that is, restarts exactly [N] times, and returns [True]
    right after the interrupt.  If the encoder ends 999 times and no pause
    is interrupted, the loop stops there and [True] is returned as well.
    In no case is the encoder launched more than 999 times. *)
Theorem restart_loop (w : World) (p : plan) (text : string) (s : state) :
  encoding_plan (quality (init w)) (aspect_ratio (init w)) = Ret p ->
  resolution_text p = Ret text ->
  let cmd := ffmpeg_cmd (init w) p in
  (forall N : nat,
      Z.of_nat N < 999 ->
      (forall k, 0 <= k < Z.of_nat N -> exists c, ffmpeg w k cmd = Ret c) ->
      (forall k, 0 < k <= Z.of_nat N -> sleep_interrupted w k = false) ->
      ffmpeg w (Z.of_nat N) cmd = Raise KeyboardInterrupt ->
      start_streaming w (init w) s =
        Some (Ret true,
              {| files := files s;
                 trace := trace s ++ sessions_trace cmd 5 0 N
                                  ++ [EvFfmpeg (Z.of_nat N + 1) cmd] |})
      /\ count_sleeps (sessions_trace cmd 5 0 N
                       ++ [EvFfmpeg (Z.of_nat N + 1) cmd]) = N
      /\ count_launches (sessions_trace cmd 5 0 N
                         ++ [EvFfmpeg (Z.of_nat N + 1) cmd]) = S N)
  /\ ((forall k, 0 <= k < 999 -> exists c, ffmpeg w k cmd = Ret c) ->
      (forall k, 0 < k <= 999 -> sleep_interrupted w k = false) ->
      start_streaming w (init w) s =
        Some (Ret true,
              {| files := files s;
                 trace := trace s ++ sessions_trace cmd 5 0 999 |}))
  /\ (forall r s',
      start_streaming w (init w) s = Some (r, s') ->
      Z.of_nat (count_launches (trace s'))
      <= Z.of_nat (count_launches (trace s)) + 999).
Proof.
  intros Hp Ht cmd.
  assert (Ends : forall n : Z,
             (forall k, 0 <= k < n -> exists c, ffmpeg w k cmd = Ret c) ->
             forall k, 0 <= k < 0 + n -> session_ends (ffmpeg w k cmd)).
  { intros n H k Hk. destruct (H k) as [c ->]; [lia | exact I]. }
  split; [|split].
  - intros N HN He Hs Hi.
    split; [|destruct (count_sessions cmd 5 N 0) as [L S];
             rewrite count_sleeps_app, count_launches_app, L, S; simpl; lia].
    rewrite (start_streaming_plan w (init w) p text s Hp Ht). fold cmd.
    replace 999%nat with (N + (S (998 - N)))%nat by lia.
    rewrite stream_loop_sessions;
      [| now apply Ends | intros k Hk; apply Hs; lia | lia].
    rewrite stream_loop_interrupted; [| lia | exact Hi].
    simpl. now rewrite <- app_assoc.
  - intros He Hs.
    rewrite (start_streaming_plan w (init w) p text s Hp Ht). fold cmd.
    replace 999%nat with (999 + 0)%nat at 1 by lia.
    rewrite stream_loop_sessions;
      [| apply (Ends 999 He) | intros k Hk; apply Hs; lia | lia].
    now rewrite stream_loop_ceiling by lia.
  - intros r s' H.
    destruct (start_streaming_outcome w (init w) s) as [r0 [s0 [H0 [_ [Hl _]]]]].
    rewrite H in H0. now injection H0 as <- <-.
Qed.

(** Three sessions end, the fourth is interrupted: three restarts. *)
Lemma restart_loop_witness :
  let w := Examples.drive_world Examples.cookie_page [20000] 50000 3 in
  let p := mkPlan 1280 720 "2500k" "5000k" in
  let cmd := ffmpeg_cmd (init w) p in
  start_streaming w (init w) initial_state =
    Some (Ret true,
          {| files := files initial_state;
             trace := trace initial_state ++ sessions_trace cmd 5 0 3
                                          ++ [EvFfmpeg (Z.of_nat 3 + 1) cmd] |})
  /\ count_sleeps (sessions_trace cmd 5 0 3 ++ [EvFfmpeg (Z.of_nat 3 + 1) cmd]) = 3%nat
  /\ count_launches (sessions_trace cmd 5 0 3 ++ [EvFfmpeg (Z.of_nat 3 + 1) cmd]) = 4%nat.
Proof.
  intros w p cmd.
  apply (proj1 (restart_loop w p "Output resolution: 1280x720" initial_state
                  eq_refl eq_refl) 3%nat).
  - simpl. lia.
  - intros k Hk. exists 1. simpl.
    destruct (Z.ltb_spec k 3) as [_|Hge]; [reflexivity | simpl in Hk; lia].
  - reflexivity.
  - reflexivity.
Defined.

(** C2 as stated fails: it does not say when the interrupt arrives.  Here
    the encoder ends twice and the interrupt arrives during the pause
    after the second session.  The loop catches [KeyboardInterrupt] around
    the run of the encoder only, so [start_streaming] does not return
    [True]: the interrupt leaves it as an exception. *)
Lemma restart_loop_counterexample :
  ~ (forall (w : World) (p : plan) (text : string) (s : state) (N : nat),
        encoding_plan (quality (init w)) (aspect_ratio (init w)) = Ret p ->
        resolution_text p = Ret text ->
        Z.of_nat N < 999 ->
        (forall k, 0 <= k < Z.of_nat N ->
                   exists c, ffmpeg w k (ffmpeg_cmd (init w) p) = Ret c) ->
        (forall k, 0 < k < Z.of_nat N -> sleep_interrupted w k = false) ->
        ((0 < N)%nat /\ sleep_interrupted w (Z.of_nat N) = true)
        \/ ((forall k, 0 < k <= Z.of_nat N -> sleep_interrupted w k = false)
            /\ ffmpeg w (Z.of_nat N) (ffmpeg_cmd (init w) p)
               = Raise KeyboardInterrupt) ->
        exists s', start_streaming w (init w) s = Some (Ret true, s')).
Proof.
  intros H.
  destruct (H MoreExamples.pause_interrupt_world
              (mkPlan 1280 720 "2500k" "5000k") "Output resolution: 1280x720"
              initial_state 2%nat) as [s' E].
  - reflexivity.
  - reflexivity.
  - simpl. lia.
  - intros k _. exists 1. reflexivity.
  - intros k Hk. assert (k = 1) by (simpl in Hk; lia). subst k. reflexivity.
  - left. split; [lia | reflexivity].
  - vm_compute in E. discriminate E.
Qed.

(** ** The encoding plan *)

Lemma even_adjust (width : Z) :
  (if width mod 2 =? 0 then width else width + 1) = round_up_even width
  /\ Z.even (round_up_even width) = true.
Proof.
  unfold round_up_even. rewrite Zmod_even.
  destruct (Z.even width) eqn:E; simpl; split; try reflexivity; try assumption.
  rewrite Z.even_add, E. reflexivity.
Qed.

Lemma bufsize_of_bitrate (height : Z) :
  exists b, bufsize_of (dict_get bitrate_map height "2500k") = Ret b.
Proof.
  unfold dict_get, bitrate_map.
  repeat match goal with
         | |- context [if ?c then _ else _] => destruct c
         end; eexists; reflexivity.
Qed.

Lemma encoding_plan_of_size (quality aspect_ratio : string) (w h : Z) :
  parse_quality quality aspect_ratio = Ret (w, h) ->
  exists p,
    encoding_plan quality aspect_ratio = Ret p /\ width p = w /\ height p = h.
Proof.
  intros H. unfold encoding_plan. rewrite H. cbn [res_bind].
  destruct (bufsize_of_bitrate h) as [b ->]. cbn [res_bind]. eauto.
Qed.

Lemma encoding_plan_even (quality aspect_ratio : string) (p : plan) :
  encoding_plan quality aspect_ratio = Ret p -> Z.even (width p) = true.
Proof.
  unfold encoding_plan, parse_quality.
  destruct (Py.contains "p" quality).
  - destruct (Py.int_of_str (Py.remove_char "p" quality)) as [h|e]; [|discriminate].
    cbn [res_bind].
    destruct (aspect_width h aspect_ratio) as [w0|e]; [|discriminate].
    cbn [res_bind].
    destruct (bufsize_of (dict_get bitrate_map h "2500k")); [|discriminate].
    cbn [res_bind]. intros [= <-]. cbn [width].
    destruct (even_adjust w0) as [-> E]. exact E.
  - cbn [res_bind].
    destruct (bufsize_of (dict_get bitrate_map 720 "2500k")); [|discriminate].
    intros [= <-]. reflexivity.
Qed.

(** Division of integers stays within binary64 for operands of this size. *)
Lemma truediv_in_range (a b : Z) :
  0 <= a < 2 ^ 1010 -> 0 < b -> exists f, Py.truediv a b = Ret f.
Proof.
  intros Ha Hb. unfold Py.truediv.
  destruct (b =? 0) eqn:E; [apply Z.eqb_eq in E; lia|].
  rewrite (Z.abs_eq a), (Z.abs_eq b) by lia.
  destruct (a =? 0) eqn:E0; [eauto|]. apply Z.eqb_neq in E0.
  cbv zeta.
  set (d := Z.log2 a - Z.log2 b).
  set (e0 := if (if 0 <=? d then b * 2 ^ d <=? a else b <=? a * 2 ^ (- d))
             then d else d - 1).
  set (u := Z.max (e0 - 52) (-1074)).
  destruct (0 <=? u) eqn:Eu; [|simpl; eauto].
  apply Z.leb_le in Eu. cbn [andb].
  set (q := a / (b * 2 ^ u)). set (r := a mod (b * 2 ^ u)).
  set (m := if 2 * r <? b * 2 ^ u then q
            else if b * 2 ^ u <? 2 * r then q + 1
                 else if Z.even q then q else q + 1).
  assert (Hlog : Z.log2 a < 1010) by (apply Z.log2_lt_pow2; lia).
  assert (Hlb : 0 <= Z.log2 b) by apply Z.log2_nonneg.
  assert (He0 : e0 <= d) by (unfold e0; destruct (if 0 <=? d then _ else _); lia).
  assert (Hu : u <= 957) by (unfold u, d in *; lia).
  assert (HP : 0 < 2 ^ u) by (apply Z.pow_pos_nonneg; lia).
  assert (HP' : 2 ^ u <= 2 ^ 957) by (apply Z.pow_le_mono_r; lia).
  assert (Hq : 0 <= q) by (apply Z.div_pos; nia).
  assert (Hqa : b * 2 ^ u * q <= a) by (apply Z.mul_div_le; nia).
  assert (Hm : m <= q + 1)
    by (unfold m; repeat match goal with
                         | |- context [if ?c then _ else _] => destruct c
                         end; lia).
  assert (Hm0 : q * 2 ^ u <= a) by nia.
  assert (Hlt : m * 2 ^ u < 2 ^ 1024).
  { apply Z.le_lt_trans with ((q + 1) * 2 ^ u); [nia|].
    apply Z.le_lt_trans with (a + 2 ^ 957); [lia|].
    apply Z.lt_le_trans with (2 ^ 1010 + 2 ^ 957); [lia|].
    vm_compute. discriminate. }
  apply Z.leb_gt in Hlt. rewrite Hlt. eauto.
Qed.

(** *** Qualities of the form digits followed by [p] *)

Lemma digit_code (c : ascii) : Py.is_digit c = true -> 48 <= Py.code c <= 57.
Proof.
  unfold Py.is_digit. intros H. apply andb_true_iff in H as [H1 H2].
  apply Z.leb_le in H1, H2. lia.
Qed.

Lemma digit_not_space (c : ascii) : Py.is_digit c = true -> Py.is_space c = false.
Proof.
  intros H. apply digit_code in H. unfold Py.is_space.
  apply orb_false_iff. split.
  - apply andb_false_iff. right. apply Z.leb_gt. lia.
  - apply Z.eqb_neq. lia.
Qed.

(** A string of ASCII digits is parsed as it is. *)
Lemma to_ascii_digits (ds : string) :
  all_chars Py.is_digit ds = true -> Py.to_ascii ds = Some ds.
Proof.
  induction ds as [|c ds IH]; cbn [all_chars Py.to_ascii]; [reflexivity|].
  intros H. apply andb_true_iff in H as [Hc Hd]. apply digit_code in Hc.
  cbv zeta. replace (Py.code c <? 127) with true by (symmetry; apply Z.ltb_lt; lia).
  now rewrite (IH Hd).
Qed.

Lemma digit_not_char (c d : ascii) :
  Py.is_digit c = true -> Py.is_digit d = false -> Ascii.eqb c d = false.
Proof.
  intros Hc Hd. destruct (Ascii.eqb_spec c d) as [->|]; [congruence | reflexivity].
Qed.

Lemma lstrip_digits (ds : string) :
  all_chars Py.is_digit ds = true -> Py.lstrip ds = ds.
Proof.
  destruct ds as [|c ds]; simpl; [reflexivity|]. intros H.
  apply andb_true_iff in H as [H _]. now rewrite (digit_not_space c H).
Qed.

Lemma rstrip_digits (ds : string) :
  all_chars Py.is_digit ds = true -> Py.rstrip ds = ds.
Proof.
  induction ds as [|c ds IH]; simpl; [reflexivity|]. intros H.
  apply andb_true_iff in H as [Hc Hd]. rewrite (IH Hd).
  destruct ds; [now rewrite (digit_not_space c Hc) | reflexivity].
Qed.

Lemma digits_of_digit_string (ds : string) :
  all_chars Py.is_digit ds = true ->
  forall acc after_digit,
    Py.digits ds acc after_digit =
    match ds with
    | EmptyString => if after_digit then Some acc else None
    | _ => Some (decimal_acc ds acc)
    end.
Proof.
  induction ds as [|c ds IH]; simpl; [reflexivity|]. intros H acc b.
  apply andb_true_iff in H as [Hc Hd]. rewrite Hc, (IH Hd). now destruct ds.
Qed.

Lemma count_digits_le_length (s : string) :
  Py.count_digits s <= Z.of_nat (String.length s).
Proof.
  induction s as [|c s IH]; cbn [Py.count_digits String.length]; [lia|].
  destruct (Py.is_digit c); lia.
Qed.

Lemma int_of_digit_string (ds : string) :
  ds <> "" -> all_chars Py.is_digit ds = true ->
  (String.length ds <= 4300)%nat ->
  Py.int_of_str ds = Ret (decimal_value ds).
Proof.
  intros Hne H Hlen. unfold Py.int_of_str, Py.strip.
  rewrite (to_ascii_digits ds H). cbv zeta.
  rewrite (lstrip_digits ds H), (rstrip_digits ds H).
  destruct ds as [|c ds]; [now elim Hne|].
  assert (E : match String c ds with
              | String "-" u => option_map Z.opp (Py.digits u 0 false)
              | String "+" u => Py.digits u 0 false
              | _ => Py.digits (String c ds) 0 false
              end = Py.digits (String c ds) 0 false).
  { simpl in H. apply andb_true_iff in H as [Hc _].
    destruct c as [[] [] [] [] [] [] [] []]; try reflexivity;
      vm_compute in Hc; discriminate Hc. }
  rewrite E, (digits_of_digit_string _ H).
  assert (L : (Py.max_str_digits <? Py.count_digits (String c ds)) = false).
  { apply Z.ltb_ge. pose proof (count_digits_le_length (String c ds)).
    unfold Py.max_str_digits. lia. }
  now rewrite L.
Qed.

Lemma remove_p_digits (ds : string) :
  all_chars Py.is_digit ds = true -> Py.remove_char "p" (ds ++ "p") = ds.
Proof.
  induction ds as [|c ds IH]; simpl; [reflexivity|]. intros H.
  apply andb_true_iff in H as [Hc Hd].
  now rewrite (digit_not_char c "p" Hc eq_refl), (IH Hd).
Qed.

Lemma decimal_acc_nonneg (ds : string) :
  all_chars Py.is_digit ds = true ->
  forall acc, 0 <= acc -> 0 <= decimal_acc ds acc.
Proof.
  induction ds as [|c ds IH]; cbn [decimal_acc all_chars]; [auto|].
  intros H acc Ha.
  apply andb_true_iff in H as [Hc Hd]. apply digit_code in Hc.
  apply (IH Hd). lia.
Qed.

Lemma aspect_width_in_range (height : Z) (aspect_ratio : string) :
  0 <= height < 2 ^ 1000 -> exists w0, aspect_width height aspect_ratio = Ret w0.
Proof.
  intros H.
  assert (B : 2 ^ 1000 * 16 < 2 ^ 1010) by (vm_compute; reflexivity).
  assert (S : forall num den, 0 < num <= 16 -> 0 < den ->
                              exists w0, scaled height num den = Ret w0).
  { intros num den Hn Hd. unfold scaled.
    destruct (truediv_in_range (height * num) den) as [f ->]; [nia | lia |].
    simpl. eauto. }
  unfold aspect_width.
  repeat match goal with
         | |- context [if ?c then _ else _] => destruct c
         end; first [apply S; lia | eauto].
Qed.

(** C3.  The plan for 1080p at 16:9 is 1920 by 1080 with bitrate 4500k
    and buffer size 9000k; for 360p at 9:16 it is 202 by 360.  Every plan
    the derivation yields has an even width.  For every quality made of
    digits followed by [p] (at most 4300 digits, their number below
    2^1000) and every aspect ratio, the derivation yields a plan whose
    height is that number and
    whose width is the width computed from the aspect ratio, rounded up
    to the next even integer when it is odd. *)
Theorem encoding_plan_width :
  encoding_plan "1080p" "16:9" = Ret (mkPlan 1920 1080 "4500k" "9000k")
  /\ encoding_plan "360p" "9:16" = Ret (mkPlan 202 360 "800k" "1600k")
  /\ (forall quality aspect_ratio p,
      encoding_plan quality aspect_ratio = Ret p -> Z.even (width p) = true)
  /\ (forall ds aspect_ratio,
      ds <> "" ->
      all_chars Py.is_digit ds = true ->
      (String.length ds <= 4300)%nat ->
      decimal_value ds < 2 ^ 1000 ->
      exists p w0,
        encoding_plan (ds ++ "p") aspect_ratio = Ret p
        /\ height p = decimal_value ds
        /\ aspect_width (decimal_value ds) aspect_ratio = Ret w0
        /\ width p = round_up_even w0
        /\ Z.even (width p) = true).
Proof.
  split; [vm_compute; reflexivity|]. split; [vm_compute; reflexivity|].
  split; [apply encoding_plan_even|].
  intros ds aspect_ratio Hne Hd Hlen Hb.
  assert (H0 : 0 <= decimal_value ds) by (apply decimal_acc_nonneg; [assumption | lia]).
  destruct (aspect_width_in_range (decimal_value ds) aspect_ratio) as [w0 Hw]; [lia|].
  assert (P : parse_quality (ds ++ "p") aspect_ratio
              = Ret (round_up_even w0, decimal_value ds)).
  { unfold parse_quality.
    assert (C : Py.contains "p" (ds ++ "p") = true)
      by (apply contains_spec; exists ds, ""; reflexivity).
    rewrite C, (remove_p_digits ds Hd), (int_of_digit_string ds Hne Hd Hlen).
    cbn [res_bind]. rewrite Hw. cbn [res_bind].
    now destruct (even_adjust w0) as [-> _]. }
  destruct (encoding_plan_of_size _ _ _ _ P) as [p [Hp [Hwp Hhp]]].
  exists p, w0. repeat split; try assumption.
  rewrite Hwp. apply even_adjust.
Qed.

(** 480p at 4:3: 640 by 480. *)
Lemma encoding_plan_width_witness :
  exists p w0,
    encoding_plan ("480" ++ "p") "4:3" = Ret p
    /\ height p = decimal_value "480"
    /\ aspect_width (decimal_value "480") "4:3" = Ret w0
    /\ width p = round_up_even w0
    /\ Z.even (width p) = true.
Proof.
  apply (proj2 (proj2 (proj2 encoding_plan_width)) "480" "4:3").
  - discriminate.
  - reflexivity.
  - simpl. lia.
  - vm_compute. reflexivity.
Defined.

(** C4, as the code has it.  For every quality in which the letter [p]
    does not occur (such as the text best) and every aspect ratio, the
    derivation falls back to 1280 by 720 with bitrate 2500k (and buffer
    size 5000k). *)
Theorem quality_without_p_falls_back (quality aspect_ratio : string) :
  ~ occurs "p" quality ->
  encoding_plan quality aspect_ratio = Ret (mkPlan 1280 720 "2500k" "5000k").
Proof.
  intros H. apply contains_false_spec in H.
  unfold encoding_plan, parse_quality. rewrite H. reflexivity.
Qed.

Lemma quality_without_p_falls_back_witness :
  encoding_plan "best" "9:16" = Ret (mkPlan 1280 720 "2500k" "5000k").
Proof.
  apply (quality_without_p_falls_back "best" "9:16").
  apply contains_false_spec. reflexivity.
Defined.

(** C4 as stated fails: the text deep is not digits followed by [p], yet
    the derivation does not fall back but raises [ValueError]. *)
Lemma quality_fallback_counterexample :
  ~ (forall quality aspect_ratio,
        expected_shape quality = false ->
        exists p,
          encoding_plan quality aspect_ratio = Ret p
          /\ width p = 1280 /\ height p = 720 /\ video_bitrate p = "2500k").
Proof.
  intros H. destruct (H "deep" "16:9" eq_refl) as [p [E _]].
  vm_compute in E. discriminate E.
Qed.

(** ** Exit status *)

Lemma main_of_run (w : World) (r : res bool) (s' : state) :
  run w (init w) initial_state = Some (r, s') ->
  main w = Some (match r with
                 | Ret success => if success then 0 else 1
                 | Raise e => if is_Exception e then 1 else 0
                 end).
Proof.
  intros H. unfold main. rewrite H. destruct r as [b|e]; [reflexivity|].
  now destruct e.
Qed.

(** Once the download is accepted, the encoding plan exists and its
    resolution is printed, [run] can only end by returning [True] or by an
    interrupt from the keyboard. *)
Lemma run_streaming (w : World) (self : streamer) (s s1 : state) (n : Z)
  (p : plan) (text : string) :
  Py.falsy (stream_key self) = false ->
  Py.falsy (video_url self) = false ->
  download_video w self s = Some (Ret true, s1) ->
  files s1 (video_file self) = Some n ->
  10000 <= n ->
  encoding_plan (quality self) (aspect_ratio self) = Ret p ->
  resolution_text p = Ret text ->
  exists r s',
    run w self s = Some (r, s') /\ (r = Ret true \/ r = Raise KeyboardInterrupt).
Proof.
  intros Hk Hu Hd Hf Hn Hp Ht.
  rewrite (run_after_download w self s s1 n Hk Hu Hd Hf).
  apply Z.ltb_ge in Hn. rewrite Hn. unfold bind.
  destruct (total_get_video_duration w self s1) as [rd [s2 Hg]]. rewrite Hg.
  destruct rd as [d|e].
  - destruct (start_streaming_outcome w self s2) as [r3 [s3 [H3 [_ [_ Hr]]]]].
    rewrite Hp, Ht in Hr. rewrite H3.
    destruct Hr as [-> | ->]; eexists; eexists; split;
      first [reflexivity | now left | now right].
  - apply get_video_duration_contains_errors in Hg.
    destruct e; try discriminate. eexists; eexists; split; [reflexivity | now right].
Qed.

Lemma int_of_str_error (s : string) (e : exn) :
  Py.int_of_str s = Raise e -> e = ValueError.
Proof.
  unfold Py.int_of_str. cbv zeta.
  repeat match goal with
         | |- context [match ?x with _ => _ end] => destruct x
         end; intros [= <-]; reflexivity.
Qed.

Lemma truediv_error (a b : Z) (e : exn) :
  Py.truediv a b = Raise e -> is_Exception e = true.
Proof.
  unfold Py.truediv. destruct (b =? 0); [now intros [= <-]|].
  destruct (Z.abs a =? 0); [discriminate|]. cbv zeta.
  match goal with
  | |- context [if ?c then Raise OverflowError else _] => destruct c
  end; [now intros [= <-] | discriminate].
Qed.

(** The derivation of the plan fails only with an error, never with an
    interrupt. *)
Lemma encoding_plan_error (quality aspect_ratio : string) (e : exn) :
  encoding_plan quality aspect_ratio = Raise e -> is_Exception e = true.
Proof.
  assert (S : forall h num den e0, scaled h num den = Raise e0 ->
                                   is_Exception e0 = true).
  { intros h num den e0. unfold scaled.
    destruct (Py.truediv (h * num) den) as [f|e1] eqn:E; [discriminate|].
    cbn [res_bind]. intros [= <-]. now apply (truediv_error _ _ _ E). }
  unfold encoding_plan, parse_quality.
  destruct (Py.contains "p" quality).
  - destruct (Py.int_of_str (Py.remove_char "p" quality)) as [h|e1] eqn:E1.
    + cbn [res_bind].
      destruct (aspect_width h aspect_ratio) as [w0|e2] eqn:E2.
      * cbn [res_bind]. destruct (bufsize_of_bitrate h) as [b ->]. discriminate.
      * cbn [res_bind]. intros [= <-]. unfold aspect_width in E2.
        repeat match type of E2 with
               | (if ?c then _ else _) = _ => destruct c
               end; first [discriminate E2 | now apply S in E2].
    + cbn [res_bind]. intros [= <-]. now rewrite (int_of_str_error _ _ E1).
  - cbn [res_bind]. destruct (bufsize_of_bitrate 720) as [b ->]. discriminate.
Qed.

Lemma get_video_duration_returns (w : World) (self : streamer) (s : state) :
  ffprobe w (video_file self) <> Raise KeyboardInterrupt ->
  exists d s', get_video_duration w self s = Some (Ret d, s').
Proof.
  intros H. unfold get_video_duration. unfold_monad. simpl.
  destruct (ffprobe w (video_file self)) as [[rc parsed]|e].
  - destruct (negb (rc =? 0)); [eauto|]. destruct parsed; simpl; eauto.
  - destruct e; simpl; first [now elim H | eauto].
Qed.

(** C6.  [main] always ends with status 0 or 1.  The status is 1 when the
    stream key or the source URL is missing or empty, when the download
    reports failure, when the file is missing or below 10000 bytes after
    the download, and when any error (a subclass of [Exception]) escapes
    [run].  It is 0 when [run] returns [True], when an interrupt from the
    keyboard ends the run at any point, and in every run that gets as far
    as the streaming loop (the encoding plan derived and its resolution
    printed): whether the loop is cancelled or reaches its bound of
    sessions, the status is 0.  A quality from which no plan can be
    derived, and a plan whose resolution cannot be printed, are internal
    errors that end with status 1. *)
Theorem exit_status (w : World) :
  (exists c, main w = Some c /\ (c = 0 \/ c = 1))
  /\ (Py.falsy (getenv w "YOUTUBE_STREAM_KEY") = true -> main w = Some 1)
  /\ (Py.falsy (getenv w "VIDEO_URL") = true -> main w = Some 1)
  /\ (forall s1,
      download_video w (init w) initial_state = Some (Ret false, s1) ->
      main w = Some 1)
  /\ (forall s1,
      download_video w (init w) initial_state = Some (Ret true, s1) ->
      files s1 "video.mp4" = None
      \/ (exists n, files s1 "video.mp4" = Some n /\ n < 10000) ->
      main w = Some 1)
  /\ (forall e s',
      run w (init w) initial_state = Some (Raise e, s') ->
      is_Exception e = true ->
      main w = Some 1)
  /\ (forall s',
      run w (init w) initial_state = Some (Raise KeyboardInterrupt, s') ->
      main w = Some 0)
  /\ (forall s',
      run w (init w) initial_state = Some (Ret true, s') -> main w = Some 0)
  /\ (forall s1 n p text,
      Py.falsy (getenv w "YOUTUBE_STREAM_KEY") = false ->
      Py.falsy (getenv w "VIDEO_URL") = false ->
      download_video w (init w) initial_state = Some (Ret true, s1) ->
      files s1 "video.mp4" = Some n ->
      10000 <= n ->
      encoding_plan (quality (init w)) (aspect_ratio (init w)) = Ret p ->
      resolution_text p = Ret text ->
      main w = Some 0)
  /\ (forall s1 n e,
      Py.falsy (getenv w "YOUTUBE_STREAM_KEY") = false ->
      Py.falsy (getenv w "VIDEO_URL") = false ->
      download_video w (init w) initial_state = Some (Ret true, s1) ->
      files s1 "video.mp4" = Some n ->
      10000 <= n ->
      ffprobe w "video.mp4" <> Raise KeyboardInterrupt ->
      encoding_plan (quality (init w)) (aspect_ratio (init w)) = Raise e ->
      main w = Some 1)
  /\ (forall s1 n p e,
      Py.falsy (getenv w "YOUTUBE_STREAM_KEY") = false ->
      Py.falsy (getenv w "VIDEO_URL") = false ->
      download_video w (init w) initial_state = Some (Ret true, s1) ->
      files s1 "video.mp4" = Some n ->
      10000 <= n ->
      ffprobe w "video.mp4" <> Raise KeyboardInterrupt ->
      encoding_plan (quality (init w)) (aspect_ratio (init w)) = Ret p ->
      resolution_text p = Raise e ->
      main w = Some 1).
Proof.
  assert (Key : Py.falsy (getenv w "YOUTUBE_STREAM_KEY") = true -> main w = Some 1).
  { intros H. unfold main, run.
    change (stream_key (init w)) with (getenv w "YOUTUBE_STREAM_KEY").
    now rewrite H. }
  assert (Url : Py.falsy (getenv w "VIDEO_URL") = true -> main w = Some 1).
  { intros H. unfold main, run.
    change (stream_key (init w)) with (getenv w "YOUTUBE_STREAM_KEY").
    change (video_url (init w)) with (getenv w "VIDEO_URL").
    rewrite H. now destruct (Py.falsy (getenv w "YOUTUBE_STREAM_KEY")). }
  split; [|split; [exact Key | split; [exact Url|]]].
  - destruct (total_run w (init w) initial_state) as [r [s' H]].
    rewrite (main_of_run w r s' H).
    destruct r as [[|]|e]; [| | destruct (is_Exception e)]; eauto.
  - repeat split.
    + intros s1 Hd.
      now rewrite (main_of_run w _ _ (run_download_failed w (init w) _ s1 Hd)).
    + intros s1 Hd Hf.
      destruct (Py.falsy (getenv w "YOUTUBE_STREAM_KEY")) eqn:Hk; [now apply Key|].
      destruct (Py.falsy (getenv w "VIDEO_URL")) eqn:Hu; [now apply Url|].
      destruct Hf as [Hf | [n [Hf Hn]]].
      * now rewrite (main_of_run w _ _
                       (run_file_missing w (init w) _ s1 Hk Hu Hd Hf)).
      * pose proof (run_after_download w (init w) _ s1 n Hk Hu Hd Hf) as R.
        apply Z.ltb_lt in Hn. rewrite Hn in R. now rewrite (main_of_run w _ _ R).
    + intros e s' H He. rewrite (main_of_run w _ _ H). now rewrite He.
    + intros s' H. now rewrite (main_of_run w _ _ H).
    + intros s' H. now rewrite (main_of_run w _ _ H).
    + intros s1 n p text Hk Hu Hd Hf Hn Hp Ht.
      destruct (run_streaming w (init w) initial_state s1 n p text
                  Hk Hu Hd Hf Hn Hp Ht)
        as [r [s' [H [-> | ->]]]]; now rewrite (main_of_run w _ _ H).
    + intros s1 n e Hk Hu Hd Hf Hn Hq He.
      pose proof (run_after_download w (init w) _ s1 n Hk Hu Hd Hf) as R.
      apply Z.ltb_ge in Hn. rewrite Hn in R. unfold bind in R.
      destruct (get_video_duration_returns w (init w) s1 Hq) as [d [s2 G]].
      rewrite G, (start_streaming_no_plan w (init w) e s2 He) in R.
      rewrite (main_of_run w _ _ R). now rewrite (encoding_plan_error _ _ _ He).
    + intros s1 n p e Hk Hu Hd Hf Hn Hq Hp He.
      pose proof (run_after_download w (init w) _ s1 n Hk Hu Hd Hf) as R.
      apply Z.ltb_ge in Hn. rewrite Hn in R. unfold bind in R.
      destruct (get_video_duration_returns w (init w) s1 Hq) as [d [s2 G]].
      rewrite G, (start_streaming_no_text w (init w) p e s2 Hp He) in R.
      rewrite (main_of_run w _ _ R). now rewrite (resolution_text_error _ _ He).
Qed.

(** A direct download of 9000 bytes is reported as a success by the
    download but fails the check of [run]: status 1. *)
Lemma exit_status_witness :
  main (Examples.direct_world [9000]) = Some 1.
Proof.
  eapply (proj1 (proj2 (proj2 (proj2 (proj2
            (exit_status (Examples.direct_world [9000]))))))).
  - vm_compute. reflexivity.
  - right. exists 9000. split; [reflexivity | lia].
Defined.

(** ** More on the URL classifier *)

Lemma search_group (cls : ascii -> bool) (lit url g : string) :
  Re.search cls lit url = Some g -> g <> "" /\ all_chars cls g = true.
Proof.
  intros H. apply search_some in H as [pre [[post [_ [Hne [Hall _]]]] _]]. auto.
Qed.

(** X1.  An identifier returned by [extract_gdrive_id] is never empty and
    consists of letters, digits, underscores and hyphens only. *)
Theorem extract_gdrive_id_charset (url file_id : string) :
  extract_gdrive_id url = Some file_id ->
  file_id <> "" /\ all_chars Re.is_id_char file_id = true.
Proof.
  intros H. apply first_match_sound in H as [_ [lit [_ [_ [_ Hm]]]]].
  apply search_some in Hm. exact (search_group _ _ _ _ Hm).
Qed.

Lemma extract_gdrive_id_charset_witness :
  "a-B_9" <> "" /\ all_chars Re.is_id_char "a-B_9" = true.
Proof.
  apply (extract_gdrive_id_charset "https://docs.google.com/d/a-B_9?x=y/z" "a-B_9").
  reflexivity.
Defined.

Lemma open_id_implies_id (url : string) :
  Re.search Re.is_id_char "id=" url = None ->
  Re.search Re.is_id_char "/open?id=" url = None.
Proof.
  rewrite !search_none. intros H pre g [post [E R]].
  apply (H (pre ++ "/open?") g). exists post. split; [|exact R].
  rewrite E, append_assoc. reflexivity.
Qed.

(** X2.  The third pattern of [extract_gdrive_id] never decides the
    result: wherever it matches, the second pattern matches as well and
    comes first, so the function returns the same as with the three other
    patterns alone. *)
Theorem third_pattern_is_redundant (url : string) :
  extract_gdrive_id url = first_match effective_patterns url.
Proof.
  unfold extract_gdrive_id, patterns, effective_patterns. cbn [first_match].
  destruct (Re.search Re.is_id_char "/file/d/" url); [reflexivity|].
  destruct (Re.search Re.is_id_char "id=" url) eqn:E; [reflexivity|].
  now rewrite (open_id_implies_id url E).
Qed.

Lemma take_run_all (cls : ascii -> bool) (g : string) :
  all_chars cls g = true -> Re.take_run cls g = g.
Proof.
  intros H. rewrite <- (append_nil_r g) at 1. now apply take_run_unique.
Qed.

Lemma search_in_run (cls : ascii -> bool) (c : ascii) (lit s : string) :
  cls c = false -> all_chars cls s = true ->
  Re.search cls (String c lit) s = None.
Proof.
  intros Hc. induction s as [|d s IH]; intros Hs.
  - reflexivity.
  - cbn [all_chars] in Hs. apply andb_true_iff in Hs as [Hd Hs].
    cbn [Re.search]. unfold Re.match_here. cbn [Re.after_literal].
    destruct (Ascii.eqb_spec c d) as [->|_]; [congruence|]. now apply IH.
Qed.

(** X3.  The usual Drive URLs built around an identifier give that
    identifier back and are classified as Drive URLs: the share form
    [/file/d/<id>] followed by anything that does not continue the
    identifier, the form [uc?id=<id>] that the fallback itself builds, and
    the form [open?id=<id>]. *)
Theorem extract_gdrive_id_round_trip (file_id : string) :
  file_id <> "" ->
  all_chars Re.is_id_char file_id = true ->
  (forall rest,
      run_ends Re.is_id_char rest ->
      extract_gdrive_id ("https://drive.google.com/file/d/" ++ file_id ++ rest)
        = Some file_id
      /\ is_google_drive_url
           ("https://drive.google.com/file/d/" ++ file_id ++ rest) = true)
  /\ extract_gdrive_id ("https://drive.google.com/uc?id=" ++ file_id) = Some file_id
  /\ is_google_drive_url ("https://drive.google.com/uc?id=" ++ file_id) = true
  /\ extract_gdrive_id ("https://drive.google.com/open?id=" ++ file_id) = Some file_id
  /\ is_google_drive_url ("https://drive.google.com/open?id=" ++ file_id) = true.
Proof.
  intros Hne Hid.
  assert (Drive : forall tail, is_google_drive_url ("https://drive.google.com" ++ tail) = true).
  { intros tail. unfold is_google_drive_url. apply orb_true_iff. left.
    apply contains_spec. now exists "https://", tail. }
  assert (NoSlash : Re.search Re.is_id_char "/file/d/" file_id = None)
    by (now apply search_in_run).
  split; [|split; [|split; [|split]]].
  - intros rest Hr. split; [|apply (Drive ("/file/d/" ++ file_id ++ rest))].
    unfold extract_gdrive_id, patterns.
    cbn -[Re.take_run Re.is_id_char].
    rewrite (take_run_unique _ _ _ Hid Hr).
    destruct file_id; [now elim Hne | reflexivity].
  - unfold extract_gdrive_id, patterns.
    cbn -[Re.take_run Re.is_id_char].
    rewrite NoSlash, (take_run_all _ _ Hid).
    destruct file_id; [now elim Hne | reflexivity].
  - apply (Drive ("/uc?id=" ++ file_id)).
  - unfold extract_gdrive_id, patterns.
    cbn -[Re.take_run Re.is_id_char].
    rewrite NoSlash, (take_run_all _ _ Hid).
    destruct file_id; [now elim Hne | reflexivity].
  - apply (Drive ("/open?id=" ++ file_id)).
Qed.

Lemma extract_gdrive_id_round_trip_witness :
  extract_gdrive_id ("https://drive.google.com/uc?id=" ++ "1aB_c-9Z") = Some "1aB_c-9Z".
Proof.
  apply (extract_gdrive_id_round_trip "1aB_c-9Z"); [discriminate | reflexivity].
Defined.

(** ** More on the encoding plan *)

(** For operands of this size the rounding of the float quotient never
    reaches the next integer: truncating it gives the integer quotient. *)
Lemma truediv_exact (a b : Z) :
  0 <= a < 2 ^ 48 -> 0 < b <= 16 ->
  exists f, Py.truediv a b = Ret f /\ Py.int_of_float f = a / b.
Proof.
  intros Ha Hb. unfold Py.truediv.
  destruct (b =? 0) eqn:E; [apply Z.eqb_eq in E; lia|].
  rewrite (Z.abs_eq a), (Z.abs_eq b) by lia.
  destruct (a =? 0) eqn:E0.
  { apply Z.eqb_eq in E0. subst a. eexists. split; [reflexivity|].
    rewrite Z.div_0_l by lia. reflexivity. }
  apply Z.eqb_neq in E0. cbv zeta.
  set (d := Z.log2 a - Z.log2 b).
  set (e0 := if (if 0 <=? d then b * 2 ^ d <=? a else b <=? a * 2 ^ (- d))
             then d else d - 1).
  set (u := Z.max (e0 - 52) (-1074)).
  assert (Hlog : Z.log2 a < 48) by (apply Z.log2_lt_pow2; lia).
  assert (Hlb : 0 <= Z.log2 b) by apply Z.log2_nonneg.
  assert (He0 : e0 <= d) by (unfold e0; destruct (if 0 <=? d then _ else _); lia).
  assert (Hu : -1074 <= u <= -5) by (unfold u, d in *; lia).
  assert (Eu : (0 <=? u) = false) by (apply Z.leb_gt; lia).
  rewrite Eu. cbn [andb].
  set (K := 2 ^ (- u)).
  set (q := a * K / b). set (r := (a * K) mod b).
  set (m := if 2 * r <? b then q
            else if b <? 2 * r then q + 1
                 else if Z.even q then q else q + 1).
  assert (Sg : Z.sgn a * Z.sgn b = 1).
  { rewrite (Z.sgn_pos a), (Z.sgn_pos b) by lia. reflexivity. }
  rewrite Sg, Z.mul_1_l.
  eexists. split; [reflexivity|].
  unfold Py.int_of_float. cbn [Py.expo Py.mant]. rewrite Eu. fold K.
  assert (HK : 32 <= K).
  { unfold K. change 32 with (2 ^ 5). apply Z.pow_le_mono_r; lia. }
  assert (Hm : q <= m <= q + 1)
    by (unfold m; repeat match goal with
                         | |- context [if ?c then _ else _] => destruct c
                         end; lia).
  pose proof (Z.div_mod a b ltac:(lia)) as Dm.
  pose proof (Z.mod_pos_bound a b ltac:(lia)) as Rm.
  assert (HQ : 0 <= a / b) by (apply Z.div_pos; lia).
  set (Q := a / b) in *. set (r0 := a mod b) in *.
  assert (Hq1 : Q * K <= q).
  { unfold q. apply Z.div_le_lower_bound; [lia|]. nia. }
  assert (Hq2 : q <= Q * K + K - 2).
  { unfold q. apply Z.lt_succ_r. apply Z.div_lt_upper_bound; [lia|]. nia. }
  assert (Hm0 : 0 <= m) by nia.
  rewrite Z.quot_div_nonneg by lia.
  symmetry. apply (Z.div_unique m K Q (m - Q * K)); [left; lia | lia].
Qed.

Lemma scaled_exact (height num den : Z) :
  0 <= height < 2 ^ 44 -> 0 < num <= 16 -> 0 < den <= 16 ->
  scaled height num den = Ret (height * num / den).
Proof.
  intros Hh Hn Hd. unfold scaled.
  assert (B : 2 ^ 44 * 16 = 2 ^ 48) by reflexivity.
  destruct (truediv_exact (height * num) den) as [f [-> E]]; [nia | lia |].
  cbn [res_bind]. now rewrite E.
Qed.

(** X4.  For heights below 2^44 the floating-point computation of the
    width is exact: [int(height * n / d)] is the integer quotient of
    [height * n] by [d] for each aspect ratio (16:9 for an unknown one,
    the height itself for 1:1).  The plan derived from a quality made of
    digits followed by [p] therefore has that quotient, rounded up to
    even, as its width. *)
Theorem width_is_integer_quotient :
  (forall height aspect_ratio,
      0 <= height < 2 ^ 44 ->
      aspect_width height aspect_ratio = Ret (exact_width height aspect_ratio))
  /\ (forall ds aspect_ratio,
      ds <> "" ->
      all_chars Py.is_digit ds = true ->
      (String.length ds <= 4300)%nat ->
      decimal_value ds < 2 ^ 44 ->
      exists p,
        encoding_plan (ds ++ "p") aspect_ratio = Ret p
        /\ height p = decimal_value ds
        /\ width p = round_up_even (exact_width (decimal_value ds) aspect_ratio)).
Proof.
  assert (W : forall height aspect_ratio,
             0 <= height < 2 ^ 44 ->
             aspect_width height aspect_ratio = Ret (exact_width height aspect_ratio)).
  { intros h a Hh. unfold aspect_width, exact_width.
    repeat match goal with
           | |- context [if ?c then _ else _] => destruct c
           end; first [reflexivity | apply scaled_exact; lia]. }
  split; [exact W|].
  intros ds aspect_ratio Hne Hd Hlen Hb.
  assert (H0 : 0 <= decimal_value ds) by (apply decimal_acc_nonneg; [assumption | lia]).
  assert (P : parse_quality (ds ++ "p") aspect_ratio
              = Ret (round_up_even (exact_width (decimal_value ds) aspect_ratio),
                     decimal_value ds)).
  { unfold parse_quality.
    assert (C : Py.contains "p" (ds ++ "p") = true)
      by (apply contains_spec; exists ds, ""; reflexivity).
    rewrite C, (remove_p_digits ds Hd), (int_of_digit_string ds Hne Hd Hlen).
    cbn [res_bind]. rewrite W by lia. cbn [res_bind].
    now destruct (even_adjust (exact_width (decimal_value ds) aspect_ratio)) as [-> _]. }
  destruct (encoding_plan_of_size _ _ _ _ P) as [p [Hp [Hwp Hhp]]].
  exists p. auto.
Qed.

(** 2160p at 9:16: 2160 * 9 / 16 = 1215, rounded up to 1216. *)
Lemma width_is_integer_quotient_witness :
  exists p,
    encoding_plan ("2160" ++ "p") "9:16" = Ret p
    /\ height p = decimal_value "2160"
    /\ width p = round_up_even (exact_width (decimal_value "2160") "9:16").
Proof.
  apply (proj2 width_is_integer_quotient "2160" "9:16").
  - discriminate.
  - reflexivity.
  - simpl. lia.
  - vm_compute. reflexivity.
Defined.

(** X5.  In every plan the derivation yields, the video bitrate is the
    entry of the table for the height of the plan, 2500k when the height
    is not in the table, and the buffer size is twice the bitrate in the
    same unit. *)
Theorem bufsize_is_twice_the_bitrate (quality aspect_ratio : string) (p : plan) :
  encoding_plan quality aspect_ratio = Ret p ->
  video_bitrate p = dict_get bitrate_map (height p) "2500k"
  /\ ((forall v, ~ In (height p, v) bitrate_map) -> video_bitrate p = "2500k")
  /\ exists n,
       0 < n
       /\ video_bitrate p = Py.str_of_int n ++ "k"
       /\ bufsize p = Py.str_of_int (2 * n) ++ "k".
Proof.
  intros H.
  assert (S : exists h w b,
             p = mkPlan w h (dict_get bitrate_map h "2500k") b
             /\ bufsize_of (dict_get bitrate_map h "2500k") = Ret b).
  { unfold encoding_plan in H.
    destruct (parse_quality quality aspect_ratio) as [[w h]|e]; [|discriminate].
    cbn [res_bind] in H.
    destruct (bufsize_of (dict_get bitrate_map h "2500k")) as [b|e] eqn:E;
      [|discriminate].
    cbn [res_bind] in H. injection H as <-. now exists h, w, b. }
  destruct S as [h [w [b [-> Hb]]]]. cbn [video_bitrate height bufsize].
  split; [reflexivity|]. split.
  - intros Hn. unfold dict_get, bitrate_map.
    repeat match goal with
           | |- context [if ?a =? ?b then _ else _] =>
               destruct (Z.eqb_spec a b) as [E|_];
               [exfalso; subst; eapply Hn; simpl; eauto 10|]
           end.
    reflexivity.
  - revert Hb. unfold dict_get, bitrate_map.
    repeat match goal with
           | |- context [if ?c then _ else _] => destruct c
           end; intros [= <-].
    + exists 800. repeat split; lia.
    + exists 1200. repeat split; lia.
    + exists 2500. repeat split; lia.
    + exists 4500. repeat split; lia.
    + exists 9000. repeat split; lia.
    + exists 20000. repeat split; lia.
    + exists 2500. repeat split; lia.
Qed.

(** 240p is not in the table: it is encoded at 2500k with a buffer of
    5000k. *)
Lemma bufsize_is_twice_the_bitrate_witness :
  video_bitrate (mkPlan 426 240 "2500k" "5000k")
    = dict_get bitrate_map (height (mkPlan 426 240 "2500k" "5000k")) "2500k"
  /\ ((forall v, ~ In (height (mkPlan 426 240 "2500k" "5000k"), v) bitrate_map) ->
      video_bitrate (mkPlan 426 240 "2500k" "5000k") = "2500k")
  /\ exists n,
       0 < n
       /\ video_bitrate (mkPlan 426 240 "2500k" "5000k") = Py.str_of_int n ++ "k"
       /\ bufsize (mkPlan 426 240 "2500k" "5000k") = Py.str_of_int (2 * n) ++ "k".
Proof.
  apply (bufsize_is_twice_the_bitrate "240p" "16:9"). vm_compute. reflexivity.
Defined.

(** ** More on the acquisition *)

Lemma files_apply_effect (out : string) (fe : file_effect) (s : state)
  (t : list event) :
  files (apply_effect out fe {| files := files s; trace := t |})
  = files (apply_effect out fe s).
Proof. now destruct fe. Qed.

(** The fallback, case by case. *)
Lemma fallback_cases (w : World) (file_id out : string) (s : state) :
  download_gdrive_alternative w file_id out s =
  let s1 := {| files := files s; trace := trace s ++ [EvPipInstall] |} in
  let url := "https://drive.google.com/uc?id=" ++ file_id in
  let s2 := apply_effect out (snd (gdown w url out))
              {| files := files s;
                 trace := (trace s ++ [EvPipInstall]) ++ [EvGdown url out] |} in
  match pip_install w with
  | Raise e => if is_Exception e then Some (Ret false, s1) else Some (Raise e, s1)
  | Ret rc =>
      if rc =? 0 then
        match fst (gdown w url out) with
        | Raise e =>
            if is_Exception e then Some (Ret false, s2) else Some (Raise e, s2)
        | Ret (returncode, _) =>
            match files s2 out with
            | Some n =>
                if returncode =? 0 then Some (Ret (10000 <? n), s2)
                else Some (Ret false, s2)
            | None => Some (Ret false, s2)
            end
        end
      else Some (Ret false, s1)
  end.
Proof.
  unfold download_gdrive_alternative, run_pip, run_gdown, path_exists, getsize.
  unfold_monad. cbv zeta. cbn [files trace].
  destruct (pip_install w) as [rc|e]; [|reflexivity].
  destruct (rc =? 0); [|reflexivity]. cbn [files trace].
  destruct (gdown w ("https://drive.google.com/uc?id=" ++ file_id) out)
    as [[[returncode stderr]|e] fe]; cbn [fst snd]; [|reflexivity].
  destruct (files (apply_effect out fe _) out) as [n|] eqn:F.
  - destruct (returncode =? 0); cbn [andb]; [|reflexivity]. now rewrite F.
  - now rewrite andb_false_r.
Qed.

(** X6.  The fallback reports success exactly when [pip install] returned
    0, the tool returned 0, and the output path then holds a file of more
    than 10000 bytes.  When [pip install] did not return 0 the tool is not
    started at all: the only action is the installation, the files are
    untouched and the result is not a success. *)
Theorem fallback_succeeds_iff (w : World) (file_id out : string) (s : state) :
  ((exists s', download_gdrive_alternative w file_id out s = Some (Ret true, s'))
   <-> (pip_install w = Ret 0
        /\ exists stderr fe n,
             gdown w ("https://drive.google.com/uc?id=" ++ file_id) out
               = (Ret (0, stderr), fe)
             /\ files (apply_effect out fe s) out = Some n
             /\ 10000 < n))
  /\ (pip_install w <> Ret 0 ->
      exists r,
        download_gdrive_alternative w file_id out s
          = Some (r, {| files := files s; trace := trace s ++ [EvPipInstall] |})
        /\ r <> Ret true).
Proof.
  rewrite fallback_cases. cbv zeta. split; [split|].
  - intros [s' H].
    destruct (pip_install w) as [rc|e];
      [|destruct (is_Exception e); discriminate].
    destruct (rc =? 0) eqn:E0; [|discriminate].
    apply Z.eqb_eq in E0. subst rc.
    split; [reflexivity|].
    destruct (gdown w ("https://drive.google.com/uc?id=" ++ file_id) out)
      as [[[returncode stderr]|e] fe]; cbn [fst snd] in H;
      [|destruct (is_Exception e); discriminate].
    rewrite files_apply_effect in H.
    destruct (files (apply_effect out fe s) out) as [n|] eqn:F; [|discriminate].
    destruct (returncode =? 0) eqn:E1; [|discriminate].
    apply Z.eqb_eq in E1. subst returncode.
    destruct (10000 <? n) eqn:L; [|discriminate].
    exists stderr, fe, n. apply Z.ltb_lt in L. auto.
  - intros [Hp [stderr [fe [n [Hg [F L]]]]]]. rewrite Hp, Hg. cbn [fst snd].
    rewrite files_apply_effect, F. apply Z.ltb_lt in L. rewrite L. cbn.
    eauto.
  - intros Hp. destruct (pip_install w) as [rc|e].
    + destruct (rc =? 0) eqn:E0.
      * apply Z.eqb_eq in E0. subst rc. now elim Hp.
      * exists (Ret false). split; [reflexivity | discriminate].
    + destruct (is_Exception e); eexists; split; try reflexivity; discriminate.
Qed.

(** The tool fetches 50000 bytes: success. *)
Lemma fallback_succeeds_iff_witness :
  exists s',
    download_gdrive_alternative
      (Examples.drive_world Examples.cookie_page [4000] 50000 0)
      "F1-x" "video.mp4" initial_state = Some (Ret true, s').
Proof.
  apply (proj1 (fallback_succeeds_iff
                  (Examples.drive_world Examples.cookie_page [4000] 50000 0)
                  "F1-x" "video.mp4" initial_state)).
  split; [reflexivity|]. exists "", (Written 50000), 50000.
  repeat split; reflexivity.
Defined.

(** X7.  When the answer to the second request is labelled as HTML, the
    large-file strategy writes nothing: it hands over to the fallback with
    the files as they were, the two requests being its only actions. *)
Theorem html_answer_goes_to_fallback (w : World) (file_id out : string)
  (s : state) (r1 r2 : response) (token : option string) :
  http_get w base_url [("id", file_id)] = Ret r1 ->
  confirm_token r1 = Ret token ->
  http_get w base_url (second_params file_id token) = Ret r2 ->
  Py.contains "text/html"
    (match content_type r2 with Some v => v | None => "" end) = true ->
  download_from_gdrive w file_id out s =
  download_gdrive_alternative w file_id out
    {| files := files s;
       trace := (trace s ++ [EvGet base_url [("id", file_id)]])
                ++ [EvGet base_url (second_params file_id token)] |}.
Proof.
  intros H1 Ht H2 Hc.
  rewrite <- try_fallback. unfold download_from_gdrive, try_except_Exception.
  assert (E : gdrive_attempt w file_id out s =
              download_gdrive_alternative w file_id out
                {| files := files s;
                   trace := (trace s ++ [EvGet base_url [("id", file_id)]])
                            ++ [EvGet base_url (second_params file_id token)] |}).
  { unfold gdrive_attempt, get. unfold_monad. simpl.
    rewrite H1, Ht. simpl. now rewrite H2, Hc. }
  now rewrite E.
Qed.

Lemma html_answer_goes_to_fallback_witness :
  download_from_gdrive MoreExamples.html_world "F1-x" "video.mp4" initial_state =
  download_gdrive_alternative MoreExamples.html_world "F1-x" "video.mp4"
    {| files := files initial_state;
       trace := (trace initial_state ++ [EvGet base_url [("id", "F1-x")]])
                ++ [EvGet base_url (second_params "F1-x" None)] |}.
Proof.
  apply (html_answer_goes_to_fallback MoreExamples.html_world "F1-x" "video.mp4"
           initial_state MoreExamples.plain_page MoreExamples.plain_page None);
    reflexivity.
Defined.

(** X8.  When no cookie has a usable token (none has the prefix, or the
    first that has it is empty) and the page holds no token either, the
    second request is made with the generic token [t]. *)
Theorem generic_token_when_none_found (w : World) (file_id out : string)
  (s : state) (r1 : response) (content : string) :
  http_get w base_url [("id", file_id)] = Ret r1 ->
  Py.falsy (cookie_token (cookies r1)) = true ->
  text r1 = Ret content ->
  Re.search Re.is_token_char "confirm=" content = None ->
  forall r s',
    download_from_gdrive w file_id out s = Some (r, s') ->
    exists rest,
      trace s' = (trace s ++ EvGet base_url [("id", file_id)]
                          :: EvGet base_url [("id", file_id); ("confirm", "t")]
                          :: rest)%list.
Proof.
  intros H1 Hc Hx Hn r s' H.
  assert (Ht : confirm_token r1 = Ret (cookie_token (cookies r1))).
  { unfold confirm_token. rewrite Hc, Hx. cbn [res_bind]. now rewrite Hn. }
  destruct (second_request_carries_token w file_id out s r1 _ r s' H1 Ht H)
    as [rest Hr].
  exists rest. rewrite Hr.
  destruct (cookie_token (cookies r1)) as [[|c t]|]; try reflexivity.
  discriminate Hc.
Qed.

Lemma generic_token_when_none_found_witness :
  exists rest,
    trace {| files := fun p => if String.eqb p "video.mp4" then Some 50000 else None;
             trace := [EvGet base_url [("id", "F1-x")];
                       EvGet base_url [("id", "F1-x"); ("confirm", "t")];
                       EvPipInstall;
                       EvGdown "https://drive.google.com/uc?id=F1-x" "video.mp4"] |}
    = (trace initial_state
       ++ EvGet base_url [("id", "F1-x")]
       :: EvGet base_url [("id", "F1-x"); ("confirm", "t")]
       :: rest)%list.
Proof.
  apply (generic_token_when_none_found MoreExamples.html_world "F1-x" "video.mp4"
           initial_state MoreExamples.plain_page "<html>Quota exceeded</html>"
           eq_refl eq_refl eq_refl eq_refl (Ret true)).
  vm_compute. reflexivity.
Defined.

(** X9.  The direct strategy.  An answer with a status from 400 to 599
    makes the download fail before anything is written.  Any other answer
    whose length header is readable and whose body arrives in full makes
    the download succeed whatever the size of the body, an empty body
    included; the file then holds exactly the bytes of the body, whatever
    was there before. *)
Theorem direct_download_outcomes (w : World) (self : streamer) (url : string)
  (s : state) (r : response) :
  http_get w url [] = Ret r ->
  (400 <= status_code r < 600 ->
   download_direct w self url s =
   Some (Ret false, {| files := files s; trace := trace s ++ [EvGet url []] |}))
  /\ (~ (400 <= status_code r < 600) ->
      (exists total_size, total_size_of r = Ret total_size) ->
      chunks_exn r = None ->
      exists s1,
        download_direct w self url s = Some (Ret true, s1)
        /\ files s1 (video_file self) = Some (body_size (chunks r))
        /\ wrote_only (video_file self) [EvGet url []] s s1).
Proof.
  intros Hg. split.
  - intros Hs. unfold download_direct, direct_attempt, get, raise_for_status.
    unfold_monad. simpl. rewrite Hg.
    assert (E : (400 <=? status_code r) && (status_code r <? 600) = true).
    { apply andb_true_iff. split; [apply Z.leb_le | apply Z.ltb_lt]; lia. }
    now rewrite E.
  - intros Hs [total_size Hl] Hx.
    destruct (save_body_result (video_file self) r
                {| files := files s; trace := trace s ++ [EvGet url []] |})
      as [s1 [Hb [Hf [Ho Ht]]]].
    rewrite Hx in Hb. exists s1. split; [|split; [exact Hf | split]].
    + unfold download_direct, direct_attempt, get, raise_for_status.
      unfold_monad. simpl. rewrite Hg.
      assert (E : (400 <=? status_code r) && (status_code r <? 600) = false).
      { apply andb_false_iff.
        destruct (Z.leb_spec 400 (status_code r)); [right | now left].
        apply Z.ltb_ge. lia. }
      rewrite E, Hl. now rewrite Hb.
    + intros p Hp. now rewrite (Ho p Hp).
    + exact Ht.
Qed.

(** A server that answers 404: the download fails, nothing is written. *)
Lemma direct_download_outcomes_witness :
  download_direct MoreExamples.not_found_world
    (init MoreExamples.not_found_world) Examples.direct_url initial_state =
  Some (Ret false,
        {| files := files initial_state;
           trace := trace initial_state ++ [EvGet Examples.direct_url []] |}).
Proof.
  eapply (proj1 (direct_download_outcomes MoreExamples.not_found_world
                   (init MoreExamples.not_found_world) Examples.direct_url
                   initial_state _ eq_refl)).
  simpl. lia.
Defined.

(** ** More on [run] and the probe *)

(** X10.  [run] fails without a single external action (no request, no
    tool, no file touched) when the stream key or the source URL is
    missing or empty, and when the URL is a Drive URL from which no
    identifier can be extracted. *)
Theorem no_action_without_configuration (w : World) (self : streamer) (s : state) :
  Py.falsy (stream_key self) = true
  \/ Py.falsy (video_url self) = true
  \/ (exists url,
        video_url self = Some url
        /\ is_google_drive_url url = true
        /\ extract_gdrive_id url = None) ->
  run w self s = Some (Ret false, s).
Proof.
  intros H. unfold run.
  destruct (Py.falsy (stream_key self)) eqn:Hk; [reflexivity|].
  destruct (Py.falsy (video_url self)) eqn:Hu; [reflexivity|].
  destruct H as [H|[H|[url [Hv [Hd Hx]]]]]; try discriminate.
  unfold bind, download_video, download_drive. now rewrite Hv, Hd, Hx.
Qed.

(** A Drive folder URL holds no identifier. *)
Lemma no_action_without_configuration_witness :
  run Examples.unreachable_world
    (mkStreamer (Some "abcd-efgh") (Some "https://drive.google.com/drive/my-drive")
       "720p" "16:9" "rtmp://a.rtmp.youtube.com/live2/abcd-efgh" "video.mp4" 3 5)
    initial_state
  = Some (Ret false, initial_state).
Proof.
  apply no_action_without_configuration. right. right.
  exists "https://drive.google.com/drive/my-drive". repeat split; reflexivity.
Defined.

(** X11.  The probe is never fatal.  Whatever [ffprobe] returns or
    raises, short of an interrupt from the keyboard, [get_video_duration]
    returns normally (the duration only for return code 0 and a readable
    number, [None] otherwise) and changes nothing but the trace; [run]
    then goes on to the streaming loop from the same state in every
    case. *)
Theorem probe_is_never_fatal (w : World) (self : streamer) (s : state) :
  ffprobe w (video_file self) <> Raise KeyboardInterrupt ->
  get_video_duration w self s =
    Some (Ret (probe_result (ffprobe w (video_file self))),
          {| files := files s; trace := trace s ++ [EvFfprobe (video_file self)] |})
  /\ forall s0 n,
       Py.falsy (stream_key self) = false ->
       Py.falsy (video_url self) = false ->
       download_video w self s0 = Some (Ret true, s) ->
       files s (video_file self) = Some n ->
       10000 <= n ->
       run w self s0 =
         (start_streaming w self ;;; ret true)
           {| files := files s;
              trace := trace s ++ [EvFfprobe (video_file self)] |}.
Proof.
  intros H.
  assert (G : get_video_duration w self s =
              Some (Ret (probe_result (ffprobe w (video_file self))),
                    {| files := files s;
                       trace := trace s ++ [EvFfprobe (video_file self)] |})).
  { unfold get_video_duration, probe_result. unfold_monad. simpl.
    destruct (ffprobe w (video_file self)) as [[rc parsed]|e].
    - destruct (rc =? 0); destruct parsed; reflexivity.
    - destruct e; first [now elim H | reflexivity]. }
  split; [exact G|]. intros s0 n Hk Hu Hd Hf Hn.
  rewrite (run_after_download w self s0 s n Hk Hu Hd Hf).
  apply Z.ltb_ge in Hn. rewrite Hn. unfold bind at 1. now rewrite G.
Qed.

(** The probe tool is missing. *)
Lemma probe_is_never_fatal_witness :
  get_video_duration MoreExamples.no_encoder_world
    (init MoreExamples.no_encoder_world) initial_state =
  Some (Ret None,
        {| files := files initial_state;
           trace := trace initial_state ++ [EvFfprobe "video.mp4"] |}).
Proof.
  apply (probe_is_never_fatal MoreExamples.no_encoder_world
           (init MoreExamples.no_encoder_world) initial_state).
  discriminate.
Defined.

(** ** More on the streaming loop *)

Lemma sessions_trace_snoc (cmd : list string) (delay : Z) (n : nat) :
  forall first,
    sessions_trace cmd delay first (S n) =
    (sessions_trace cmd delay first n
     ++ [EvFfmpeg (first + Z.of_nat n + 1) cmd; EvSleep delay])%list.
Proof.
  induction n as [|n IH]; intros first.
  - simpl. now rewrite Z.add_0_r.
  - change (sessions_trace cmd delay first (S (S n)))
      with (EvFfmpeg (first + 1) cmd :: EvSleep delay
            :: sessions_trace cmd delay (first + 1) (S n)).
    rewrite IH. cbn [sessions_trace app].
    replace (first + 1 + Z.of_nat n + 1) with (first + Z.of_nat (S n) + 1) by lia.
    reflexivity.
Qed.

Lemma stream_loop_pause_interrupted (w : World) (fuel : nat) (self : streamer)
  (cmd : list string) (attempt : Z) (s : state) :
  attempt < 999 ->
  session_ends (ffmpeg w attempt cmd) ->
  sleep_interrupted w (attempt + 1) = true ->
  stream_loop w (S fuel) self cmd attempt s =
  Some (Raise KeyboardInterrupt,
        {| files := files s;
           trace := trace s ++ [EvFfmpeg (attempt + 1) cmd;
                                EvSleep (retry_delay self)] |}).
Proof.
  intros Ha He Hs. simpl. apply Z.ltb_lt in Ha. rewrite Ha.
  unfold bind at 1. rewrite stream_session_cases.
  assert (E : match ffmpeg w attempt cmd with
              | Raise KeyboardInterrupt =>
                  Some (Ret (Return true),
                        {| files := files s;
                           trace := trace s ++ [EvFfmpeg (attempt + 1) cmd] |})
              | _ => Some (Ret Continue,
                           {| files := files s;
                              trace := trace s ++ [EvFfmpeg (attempt + 1) cmd] |})
              end
              = Some (Ret Continue,
                      {| files := files s;
                         trace := trace s ++ [EvFfmpeg (attempt + 1) cmd] |})).
  { destruct (ffmpeg w attempt cmd) as [c|e]; [reflexivity|].
    destruct e; try reflexivity. discriminate He. }
  rewrite E. unfold bind. rewrite do_sleep_cases, Hs. simpl.
  now rewrite <- app_assoc.
Qed.

(** X12.  A launch that fails with an error counts as a session that
    ended.  With the encoding plan derived and its resolution printed, if
    each of the 999 sessions ends, by a return code or by an error such as
    a missing encoder, and no pause is interrupted, [start_streaming]
    makes 999 launches and 999 pauses of 5 seconds and then returns
    [True]. *)
Theorem launch_errors_are_restarts (w : World) (p : plan) (text : string)
  (s : state) :
  encoding_plan (quality (init w)) (aspect_ratio (init w)) = Ret p ->
  resolution_text p = Ret text ->
  (forall k, 0 <= k < 999 -> session_ends (ffmpeg w k (ffmpeg_cmd (init w) p))) ->
  (forall k, 0 < k <= 999 -> sleep_interrupted w k = false) ->
  start_streaming w (init w) s =
    Some (Ret true,
          {| files := files s;
             trace := trace s
                      ++ sessions_trace (ffmpeg_cmd (init w) p) 5 0 999 |})
  /\ count_launches (sessions_trace (ffmpeg_cmd (init w) p) 5 0 999) = 999%nat
  /\ count_sleeps (sessions_trace (ffmpeg_cmd (init w) p) 5 0 999) = 999%nat.
Proof.
  intros Hp Ht He Hs. split; [|apply count_sessions].
  rewrite (start_streaming_plan w (init w) p text s Hp Ht).
  replace 999%nat with (999 + 0)%nat at 1 by lia.
  rewrite stream_loop_sessions;
    [| intros k Hk; apply He; lia | intros k Hk; apply Hs; lia | lia].
  now rewrite stream_loop_ceiling by lia.
Qed.

(** No encoder on the machine: 999 failed launches, then [True]. *)
Lemma launch_errors_are_restarts_witness :
  let w := MoreExamples.no_encoder_world in
  let p := mkPlan 1280 720 "2500k" "5000k" in
  start_streaming w (init w) initial_state =
    Some (Ret true,
          {| files := files initial_state;
             trace := trace initial_state
                      ++ sessions_trace (ffmpeg_cmd (init w) p) 5 0 999 |})
  /\ count_launches (sessions_trace (ffmpeg_cmd (init w) p) 5 0 999) = 999%nat
  /\ count_sleeps (sessions_trace (ffmpeg_cmd (init w) p) 5 0 999) = 999%nat.
Proof.
  intros w p.
  apply (launch_errors_are_restarts w p "Output resolution: 1280x720"
           initial_state eq_refl eq_refl).
  - intros k Hk. reflexivity.
  - intros k Hk. reflexivity.
Defined.

(** X13.  An interrupt from the keyboard that arrives during a pause is
    not turned into a normal return: with the encoding plan derived and
    its resolution printed, after [N + 1] ended sessions, with the pause
    after the last of them interrupted, [start_streaming] raises
    [KeyboardInterrupt], having made [N + 1] launches and begun [N + 1]
    pauses. *)
Theorem interrupt_during_pause (w : World) (p : plan) (text : string)
  (s : state) (N : nat) :
  encoding_plan (quality (init w)) (aspect_ratio (init w)) = Ret p ->
  resolution_text p = Ret text ->
  Z.of_nat N < 999 ->
  (forall k, 0 <= k <= Z.of_nat N ->
             session_ends (ffmpeg w k (ffmpeg_cmd (init w) p))) ->
  (forall k, 0 < k <= Z.of_nat N -> sleep_interrupted w k = false) ->
  sleep_interrupted w (Z.of_nat N + 1) = true ->
  start_streaming w (init w) s =
    Some (Raise KeyboardInterrupt,
          {| files := files s;
             trace := trace s
                      ++ sessions_trace (ffmpeg_cmd (init w) p) 5 0 (S N) |}).
Proof.
  intros Hp Ht HN He Hs Hi.
  rewrite (start_streaming_plan w (init w) p text s Hp Ht).
  replace 999%nat with (N + (S (998 - N)))%nat by lia.
  rewrite stream_loop_sessions;
    [| intros k Hk; apply He; lia | intros k Hk; apply Hs; lia | lia].
  rewrite stream_loop_pause_interrupted; [| lia | apply He; lia | exact Hi].
  rewrite sessions_trace_snoc. cbn [files trace].
  now rewrite <- app_assoc.
Qed.

(** Two sessions end, the second pause is interrupted. *)
Lemma interrupt_during_pause_witness :
  let w := MoreExamples.pause_interrupt_world in
  let p := mkPlan 1280 720 "2500k" "5000k" in
  start_streaming w (init w) initial_state =
    Some (Raise KeyboardInterrupt,
          {| files := files initial_state;
             trace := trace initial_state
                      ++ sessions_trace (ffmpeg_cmd (init w) p) 5 0 2 |}).
Proof.
  intros w p.
  apply (interrupt_during_pause w p "Output resolution: 1280x720"
           initial_state 1 eq_refl eq_refl).
  - simpl. lia.
  - intros k Hk. exact I.
  - intros k Hk. simpl in Hk. assert (k = 1) by lia. subst k. reflexivity.
  - reflexivity.
Defined.

Lemma loop_tail_shift (cmd : list string) (first : Z) (n : nat)
  (r : res bool) (tail : list event) :
  loop_tail cmd (first + 1) n r tail -> loop_tail cmd first (S n) r tail.
Proof.
  unfold loop_tail. intros [[-> [H1 H2]] | [-> [-> H]]].
  - left. split; [reflexivity|]. split; [intros E; specialize (H1 E); lia | lia].
  - right. split; [|split; [reflexivity | lia]].
    replace (first + 1 + Z.of_nat n + 1) with (first + Z.of_nat (S n) + 1) by lia.
    reflexivity.
Qed.

Lemma stream_loop_shape (w : World) (self : streamer) (cmd : list string) :
  forall (fuel : nat) (attempt : Z) (s : state) (r : res bool) (s' : state),
    attempt <= 999 ->
    999 - attempt <= Z.of_nat fuel ->
    stream_loop w fuel self cmd attempt s = Some (r, s') ->
    exists (n : nat) (tail : list event),
      attempt + Z.of_nat n <= 999
      /\ files s' = files s
      /\ trace s' = (trace s ++ sessions_trace cmd (retry_delay self) attempt n
                             ++ tail)%list
      /\ loop_tail cmd attempt n r tail.
Proof.
  induction fuel as [|fuel IH]; intros a s r s' Ha Hf H.
  - rewrite stream_loop_ceiling in H by lia. injection H as <- <-.
    exists O, []. simpl. rewrite app_nil_r. repeat split; try lia.
    left. repeat split; [intros _; lia | discriminate].
  - destruct (Z.lt_ge_cases a 999) as [Hlt|Hge].
    2:{ rewrite stream_loop_ceiling in H by lia. injection H as <- <-.
        exists O, []. simpl. rewrite app_nil_r. repeat split; try lia.
        left. repeat split; [intros _; lia | discriminate]. }
    destruct (ffmpeg w a cmd) as [c|e] eqn:E.
    + destruct (sleep_interrupted w (a + 1)) eqn:Sl.
      * rewrite stream_loop_pause_interrupted in H;
          [| lia | now rewrite E | exact Sl].
        injection H as <- <-. exists 1%nat, []. cbn [files trace sessions_trace].
        rewrite app_nil_r. repeat split; try lia.
        left. repeat split; [discriminate | lia].
      * rewrite stream_loop_step in H; [| lia | now rewrite E | exact Sl].
        destruct (IH (a + 1) _ r s' ltac:(lia) ltac:(lia) H)
          as [n [tail [Hn [Hfi [Ht Hl]]]]].
        exists (S n), tail. cbn [files trace] in Hfi, Ht.
        split; [lia|]. split; [exact Hfi|]. split; [|now apply loop_tail_shift].
        rewrite Ht. cbn [sessions_trace]. rewrite <- !app_assoc. reflexivity.
    + destruct e;
        try (destruct (sleep_interrupted w (a + 1)) eqn:Sl;
             [ rewrite stream_loop_pause_interrupted in H;
                 [| lia | now rewrite E | exact Sl];
               injection H as <- <-; exists 1%nat, [];
               cbn [files trace sessions_trace]; rewrite app_nil_r;
               repeat split; try lia;
               left; repeat split; [discriminate | lia]
             | rewrite stream_loop_step in H; [| lia | now rewrite E | exact Sl];
               destruct (IH (a + 1) _ r s' ltac:(lia) ltac:(lia) H)
                 as [n [tail [Hn [Hfi [Ht Hl]]]]];
               exists (S n), tail; cbn [files trace] in Hfi, Ht;
               split; [lia|]; split; [exact Hfi|];
               split; [|now apply loop_tail_shift];
               rewrite Ht; cbn [sessions_trace]; rewrite <- !app_assoc;
               reflexivity ]).
      rewrite stream_loop_interrupted in H; [| lia | exact E].
      injection H as <- <-. exists O, [EvFfmpeg (a + 1) cmd].
      cbn [files trace sessions_trace]. repeat split; try lia.
      right. split; [|split; [reflexivity | lia]].
      now rewrite Z.add_0_r.
Qed.

(** X14.  The shape of every run of the supervisor.  Whenever
    [start_streaming] ends, its actions are [n] sessions (at most 999),
    numbered from 1 without gaps, all with the one command derived from
    the plan, each followed by a pause of the configured delay, and then
    either nothing more or one last launch that was cancelled, which is
    only possible below the bound of 999.  It returns [True] without a
    cancelled launch only at the bound, and it never touches a file. *)
Theorem supervisor_trace_shape (w : World) (self : streamer) (p : plan)
  (s : state) (r : res bool) (s' : state) :
  encoding_plan (quality self) (aspect_ratio self) = Ret p ->
  start_streaming w self s = Some (r, s') ->
  exists (n : nat) (tail : list event),
    (n <= 999)%nat
    /\ files s' = files s
    /\ trace s' = (trace s
                   ++ sessions_trace (ffmpeg_cmd self p) (retry_delay self) 0 n
                   ++ tail)%list
    /\ loop_tail (ffmpeg_cmd self p) 0 n r tail.
Proof.
  intros Hp H.
  destruct (resolution_text p) as [text|e] eqn:T.
  - rewrite (start_streaming_plan w self p text s Hp T) in H.
    destruct (stream_loop_shape w self (ffmpeg_cmd self p) 999 0 s r s'
                ltac:(lia) ltac:(lia) H) as [n [tail [Hn [Hf [Ht Hl]]]]].
    exists n, tail. repeat split; try assumption. lia.
  - rewrite (start_streaming_no_text w self p e s Hp T) in H.
    injection H as <- <-. exists O, []. cbn [sessions_trace app].
    rewrite app_nil_r. split; [lia|]. split; [reflexivity|].
    split; [reflexivity|]. left. split; [reflexivity|].
    split; [discriminate|]. intros [= ->].
    apply resolution_text_error in T. discriminate T.
Qed.

Lemma supervisor_trace_shape_witness :
  let w := MoreExamples.pause_interrupt_world in
  let p := mkPlan 1280 720 "2500k" "5000k" in
  exists (n : nat) (tail : list event),
    (n <= 999)%nat
    /\ files {| files := files initial_state;
                trace := trace initial_state
                         ++ sessions_trace (ffmpeg_cmd (init w) p) 5 0 2 |}
       = files initial_state
    /\ trace {| files := files initial_state;
                trace := trace initial_state
                         ++ sessions_trace (ffmpeg_cmd (init w) p) 5 0 2 |}
       = (trace initial_state
          ++ sessions_trace (ffmpeg_cmd (init w) p) (retry_delay (init w)) 0 n
          ++ tail)%list
    /\ loop_tail (ffmpeg_cmd (init w) p) 0 n (Raise KeyboardInterrupt) tail.
Proof.
  intros w p.
  apply (supervisor_trace_shape w (init w) p initial_state (Raise KeyboardInterrupt)
           _ eq_refl).
  vm_compute. reflexivity.
Defined.

(** ** Progress lines of the download loops *)

Lemma progress_disabled (period chunk_size : Z) (cs : list Z) :
  forall d0, progress_marks false period chunk_size cs d0 = [].
Proof.
  induction cs as [|n cs IH]; intros d0; cbn [progress_marks]; [reflexivity|].
  destruct (n =? 0); cbn [andb]; apply IH.
Qed.

Lemma progress_covers (period chunk_size : Z) (cs : list Z) :
  0 < chunk_size <= period ->
  forall d0 k,
    (forall n, In n cs -> 0 <= n <= chunk_size) ->
    d0 < k * period <= d0 + body_size cs ->
    exists m,
      In m (progress_marks true period chunk_size cs d0)
      /\ k * period <= m < k * period + chunk_size.
Proof.
  intros Hc. induction cs as [|n cs IH]; intros d0 k Hn Hk.
  - cbn [body_size] in Hk. lia.
  - cbn [body_size] in Hk. cbn [progress_marks].
    assert (Hn0 : 0 <= n <= chunk_size) by (apply Hn; now left).
    assert (Hn' : forall x, In x cs -> 0 <= x <= chunk_size)
      by (intros x Hx; apply Hn; now right).
    destruct (Z.eqb_spec n 0) as [->|Hz].
    + apply IH; [exact Hn' | lia].
    + cbv zeta. cbn [andb].
      destruct (Z_le_gt_dec (k * period) (d0 + n)) as [Hle|Hgt].
      * assert (M : (d0 + n) mod period = d0 + n - k * period).
        { symmetry. apply (Z.mod_unique_pos _ _ k); lia. }
        assert (L : ((d0 + n) mod period <? chunk_size) = true)
          by (apply Z.ltb_lt; lia).
        rewrite L. exists (d0 + n). split; [now left | lia].
      * destruct (IH (d0 + n) k Hn' ltac:(lia)) as [m [Hin Hm]].
        exists m. split; [|exact Hm].
        destruct ((d0 + n) mod period <? chunk_size); [now right | exact Hin].
Qed.

Lemma progress_sound (enabled : bool) (period chunk_size : Z) (cs : list Z) :
  forall d0 m,
    (forall n, In n cs -> 0 <= n) ->
    In m (progress_marks enabled period chunk_size cs d0) ->
    enabled = true
    /\ d0 < m <= d0 + body_size cs
    /\ m mod period < chunk_size.
Proof.
  assert (Pos : forall l : list Z, (forall n, In n l -> 0 <= n) -> 0 <= body_size l).
  { induction l as [|x l IHl]; intros H; cbn [body_size]; [lia|].
    assert (0 <= x) by (apply H; now left).
    assert (0 <= body_size l) by (apply IHl; intros y Hy; apply H; now right).
    lia. }
  induction cs as [|n cs IH]; intros d0 m Hn Hin; cbn [progress_marks] in Hin.
  - destruct Hin.
  - assert (Hn0 : 0 <= n) by (apply Hn; now left).
    assert (Hn' : forall x, In x cs -> 0 <= x) by (intros x Hx; apply Hn; now right).
    pose proof (Pos cs Hn') as Hb. cbn [body_size].
    destruct (Z.eqb_spec n 0) as [->|Hz].
    + destruct (IH d0 m Hn' Hin) as [E [R M]]. repeat split; try assumption; lia.
    + cbv zeta in Hin.
      destruct (enabled && ((d0 + n) mod period <? chunk_size)) eqn:C.
      * destruct Hin as [<-|Hin].
        -- apply andb_true_iff in C as [E L]. apply Z.ltb_lt in L.
           repeat split; try assumption; lia.
        -- destruct (IH (d0 + n) m Hn' Hin) as [E [R M]].
           repeat split; try assumption; lia.
      * destruct (IH (d0 + n) m Hn' Hin) as [E [R M]].
        repeat split; try assumption; lia.
Qed.

(** X15.  Progress lines.  As long as no chunk is longer than the chunk
    size asked for, the large-file download prints a line within 32768
    bytes after every multiple of 50 MB that the transfer passes, and the
    direct download within 8192 bytes after every multiple of 10 MB;
    every line is printed at such a place and never beyond the bytes
    received.  The direct download prints no progress at all when the
    answer carries no positive length. *)
Theorem progress_is_reported_at_every_boundary :
  (forall cs,
      (forall n, In n cs -> 0 <= n <= 32768) ->
      (forall k,
          0 < k * (1024 * 1024 * 50) <= body_size cs ->
          exists m,
            In m (gdrive_progress cs)
            /\ k * (1024 * 1024 * 50) <= m < k * (1024 * 1024 * 50) + 32768)
      /\ (forall m,
          In m (gdrive_progress cs) ->
          0 < m <= body_size cs /\ m mod (1024 * 1024 * 50) < 32768))
  /\ (forall total_size cs,
      (forall n, In n cs -> 0 <= n <= 8192) ->
      (0 < total_size ->
       forall k,
         0 < k * (1024 * 1024 * 10) <= body_size cs ->
         exists m,
           In m (direct_progress total_size cs)
           /\ k * (1024 * 1024 * 10) <= m < k * (1024 * 1024 * 10) + 8192)
      /\ (forall m,
          In m (direct_progress total_size cs) ->
          0 < total_size
          /\ 0 < m <= body_size cs /\ m mod (1024 * 1024 * 10) < 8192))
  /\ (forall total_size cs,
      total_size <= 0 -> direct_progress total_size cs = []).
Proof.
  split; [|split].
  - intros cs Hn. split.
    + intros k Hk. unfold gdrive_progress.
      apply progress_covers; [lia | exact Hn | lia].
    + intros m Hm. unfold gdrive_progress in Hm.
      destruct (progress_sound true (1024 * 1024 * 50) 32768 cs 0 m) as [_ [R M]];
        [intros n Hin; apply Hn, Hin | exact Hm |].
      split; [lia | exact M].
  - intros total_size cs Hn. split.
    + intros Ht k Hk. unfold direct_progress.
      apply Z.ltb_lt in Ht. rewrite Ht.
      apply progress_covers; [lia | exact Hn | lia].
    + intros m Hm. unfold direct_progress in Hm.
      destruct (progress_sound (0 <? total_size) (1024 * 1024 * 10) 8192 cs 0 m)
        as [E [R M]];
        [intros n Hin; apply Hn, Hin | exact Hm |].
      apply Z.ltb_lt in E. split; [exact E | split; [lia | exact M]].
  - intros total_size cs Ht. unfold direct_progress.
    apply Z.ltb_ge in Ht. rewrite Ht. apply progress_disabled.
Qed.

(** 1600 chunks of 32768 bytes are exactly 50 MB: one line at the end. *)
Lemma progress_is_reported_at_every_boundary_witness :
  exists m,
    In m (gdrive_progress (repeat 32768 1600))
    /\ 1 * (1024 * 1024 * 50) <= m < 1 * (1024 * 1024 * 50) + 32768.
Proof.
  assert (H : forall n, In n (repeat 32768 1600) -> 0 <= n <= 32768).
  { intros n Hin. apply repeat_spec in Hin. subst n. lia. }
  apply (proj1 (proj1 progress_is_reported_at_every_boundary
                  (repeat 32768 1600) H) 1).
  split; [reflexivity | vm_compute; discriminate].
Defined.

(** ** Success of the large-file strategy *)

(** X16.  Whenever [download_from_gdrive] reports success, the output
    path holds a file of at least 10000 bytes, whichever of the two
    strategies produced it.  For a Drive URL the size check of [run] can
    therefore never fail after a reported success. *)
Theorem gdrive_success_means_large_file (w : World) (file_id out : string)
  (s s' : state) :
  download_from_gdrive w file_id out s = Some (Ret true, s') ->
  exists n, files s' out = Some n /\ 10000 <= n.
Proof.
  assert (F : forall s0,
             download_gdrive_alternative w file_id out s0 = Some (Ret true, s') ->
             exists n, files s' out = Some n /\ 10000 <= n).
  { intros s0 H. apply fallback_accepts in H as [n [Hf Hn]]. exists n. split; [exact Hf | lia]. }
  unfold download_from_gdrive, try_except_Exception.
  destruct (gdrive_attempt w file_id out s) as [[[b|e] s0]|] eqn:G;
    [| destruct (is_Exception e); [apply F | discriminate] | discriminate].
  intros [= -> ->]. revert G.
  unfold gdrive_attempt, get. unfold_monad. cbn [files trace].
  destruct (http_get w base_url [("id", file_id)]) as [r1|e]; [|discriminate].
  destruct (confirm_token r1) as [token|e]; [|discriminate].
  destruct (http_get w base_url (second_params file_id token)) as [r2|e];
    [|discriminate].
  destruct (Py.contains "text/html" _); [apply F|].
  destruct (total_size_of r2) as [total_size|e]; [|discriminate].
  destruct (size_status total_size) as [[]|e]; [|discriminate].
  match goal with
  | |- context [save_body out r2 ?st] =>
      destruct (save_body_result out r2 st) as [s1 [Hs [Hf _]]]
  end.
  rewrite Hs. destruct (chunks_exn r2); [discriminate|].
  unfold getsize. rewrite Hf.
  destruct (body_size (chunks r2) <? 10000) eqn:L; [apply F|].
  intros [= <-]. exists (body_size (chunks r2)). split; [exact Hf|].
  now apply Z.ltb_ge.
Qed.

Lemma gdrive_success_means_large_file_witness :
  exists n,
    files {| files := fun p => if String.eqb p "video.mp4" then Some 50000 else None;
             trace := [EvGet base_url [("id", "F1-x")];
                       EvGet base_url [("id", "F1-x"); ("confirm", "t")];
                       EvPipInstall;
                       EvGdown "https://drive.google.com/uc?id=F1-x" "video.mp4"] |}
      "video.mp4" = Some n
    /\ 10000 <= n.
Proof.
  apply (gdrive_success_means_large_file MoreExamples.html_world "F1-x" "video.mp4"
           initial_state).
  vm_compute. reflexivity.
Defined.

(** ** Errors of the status lines *)

Lemma size_status_error (total_size : Z) (e : exn) :
  size_status total_size = Raise e -> is_Exception e = true.
Proof.
  unfold size_status. destruct (0 <? total_size); [|discriminate].
  destruct (Py.truediv total_size (1024 * 1024)) as [f|e0] eqn:E; [discriminate|].
  cbn [res_bind]. intros [= <-]. now apply (truediv_error _ _ _ E).
Qed.

(** An announced length below 2^1000 always has a size in MB. *)
Lemma size_status_in_range (total_size : Z) :
  total_size < 2 ^ 1000 -> size_status total_size = Ret tt.
Proof.
  intros H. unfold size_status. destruct (0 <? total_size) eqn:P; [|reflexivity].
  apply Z.ltb_lt in P.
  assert (B : 2 ^ 1000 < 2 ^ 1010) by (vm_compute; reflexivity).
  destruct (truediv_in_range total_size (1024 * 1024)) as [f ->]; [lia | lia |].
  reflexivity.
Qed.

(** ** Minimum size of a download *)

(** C1.  A file below 10000 bytes is never accepted as a stream source.
    In the large-file strategy a transfer that completes with fewer than
    10000 bytes hands over to the fallback (when the announced length is
    so large that its size in MB cannot be computed, the strategy hands
    over to the fallback before it writes anything); the fallback never
    reports success when it leaves such a file; [run] fails when the
    download reported success but the file has fewer than 10000 bytes; and
    in no run is the encoder launched while the file is that small. *)
Theorem undersized_file_never_accepted :
  (forall w file_id out s r1 r2 token total_size,
      http_get w base_url [("id", file_id)] = Ret r1 ->
      confirm_token r1 = Ret token ->
      http_get w base_url (second_params file_id token) = Ret r2 ->
      Py.contains "text/html"
        (match content_type r2 with Some v => v | None => "" end) = false ->
      total_size_of r2 = Ret total_size ->
      size_status total_size = Ret tt ->
      chunks_exn r2 = None ->
      body_size (chunks r2) < 10000 ->
      exists s1,
        files s1 out = Some (body_size (chunks r2))
        /\ wrote_only out [EvGet base_url [("id", file_id)];
                           EvGet base_url (second_params file_id token)] s s1
        /\ download_from_gdrive w file_id out s =
           download_gdrive_alternative w file_id out s1)
  /\ (forall w file_id out s r1 r2 token total_size e,
      http_get w base_url [("id", file_id)] = Ret r1 ->
      confirm_token r1 = Ret token ->
      http_get w base_url (second_params file_id token) = Ret r2 ->
      Py.contains "text/html"
        (match content_type r2 with Some v => v | None => "" end) = false ->
      total_size_of r2 = Ret total_size ->
      size_status total_size = Raise e ->
      download_from_gdrive w file_id out s =
      download_gdrive_alternative w file_id out
        {| files := files s;
           trace := (trace s ++ [EvGet base_url [("id", file_id)]])
                    ++ [EvGet base_url (second_params file_id token)] |})
  /\ (forall w file_id out s r s' n,
      download_gdrive_alternative w file_id out s = Some (r, s') ->
      files s' out = Some n ->
      n < 10000 ->
      r = Ret false \/ r = Raise KeyboardInterrupt)
  /\ (forall w self s s1 n,
      Py.falsy (stream_key self) = false ->
      Py.falsy (video_url self) = false ->
      download_video w self s = Some (Ret true, s1) ->
      files s1 (video_file self) = Some n ->
      n < 10000 ->
      run w self s = Some (Ret false, s1))
  /\ (forall w self s r s' n,
      run w self s = Some (r, s') ->
      files s' (video_file self) = Some n ->
      n < 10000 ->
      count_launches (trace s') = count_launches (trace s)).
Proof.
  split; [|split; [|split; [|split]]].
  - intros w file_id out s r1 r2 token total_size H1 Ht H2 Hc Hl Hz Hx Hn.
    destruct (gdrive_clean_transfer w file_id out s r1 r2 token total_size
                H1 Ht H2 Hc Hl Hz Hx) as [s1 [Hf [Hw E]]].
    exists s1. apply Z.ltb_lt in Hn. rewrite Hn in E. auto.
  - intros w file_id out s r1 r2 token total_size e H1 Ht H2 Hc Hl Hz.
    unfold download_from_gdrive, try_except_Exception.
    assert (E : gdrive_attempt w file_id out s =
                Some (Raise e,
                      {| files := files s;
                         trace := (trace s ++ [EvGet base_url [("id", file_id)]])
                                  ++ [EvGet base_url (second_params file_id token)] |})).
    { unfold gdrive_attempt, get. unfold_monad. simpl.
      rewrite H1, Ht. simpl. now rewrite H2, Hc, Hl, Hz. }
    now rewrite E, (size_status_error total_size e Hz).
  - intros w file_id out s r s' n H Hf Hn.
    apply (fallback_rejects w file_id out s s' r n H Hf). lia.
  - intros w self s s1 n Hk Hu Hd Hf Hn.
    rewrite (run_after_download w self s s1 n Hk Hu Hd Hf).
    apply Z.ltb_lt in Hn. now rewrite Hn.
  - intros w self s r s' n H Hf Hn.
    destruct (Nat.eq_dec (count_launches (trace s')) (count_launches (trace s)))
      as [E|E]; [exact E|].
    destruct (run_launch_integrity w self s s' r H E) as [m [Hm Hle]].
    rewrite Hf in Hm. injection Hm as <-. lia.
Qed.

(** A Drive transfer of 9000 bytes hands over to the fallback. *)
Lemma undersized_file_never_accepted_witness :
  let w := Examples.drive_world Examples.warning_page [4000; 0; 5000] 9500 0 in
  exists s1,
    files s1 "video.mp4" = Some 9000
    /\ wrote_only "video.mp4"
         [EvGet base_url [("id", "F1-x")];
          EvGet base_url (second_params "F1-x" (Some "BODY"))] initial_state s1
    /\ download_from_gdrive w "F1-x" "video.mp4" initial_state =
       download_gdrive_alternative w "F1-x" "video.mp4" s1.
Proof.
  intros w.
  apply (proj1 undersized_file_never_accepted w "F1-x" "video.mp4" initial_state
           Examples.warning_page (Examples.media [4000; 0; 5000]) (Some "BODY") 0);
    reflexivity.
Defined.

(** C9.  The boundary differs between the strategies.  A file of exactly
    10000 bytes, stored by a transfer whose announced length has a size in
    MB that can be computed, is accepted by the large-file strategy (no
    fallback) and
    passes the check of [run], which goes on to the probe and the encoder;
    the fallback reports failure for a file of exactly 10000 bytes that
    its tool fetched with return code 0. *)
Theorem size_boundary_inconsistent :
  (forall w file_id out s r1 r2 token total_size,
      http_get w base_url [("id", file_id)] = Ret r1 ->
      confirm_token r1 = Ret token ->
      http_get w base_url (second_params file_id token) = Ret r2 ->
      Py.contains "text/html"
        (match content_type r2 with Some v => v | None => "" end) = false ->
      total_size_of r2 = Ret total_size ->
      size_status total_size = Ret tt ->
      chunks_exn r2 = None ->
      body_size (chunks r2) = 10000 ->
      exists s1,
        files s1 out = Some 10000
        /\ wrote_only out [EvGet base_url [("id", file_id)];
                           EvGet base_url (second_params file_id token)] s s1
        /\ download_from_gdrive w file_id out s = Some (Ret true, s1))
  /\ (forall w self s s1,
      Py.falsy (stream_key self) = false ->
      Py.falsy (video_url self) = false ->
      download_video w self s = Some (Ret true, s1) ->
      files s1 (video_file self) = Some 10000 ->
      run w self s =
        (get_video_duration w self ;;; start_streaming w self ;;; ret true) s1)
  /\ (forall w file_id out s stderr,
      pip_install w = Ret 0 ->
      gdown w ("https://drive.google.com/uc?id=" ++ file_id) out
        = (Ret (0, stderr), Written 10000) ->
      exists s2,
        download_gdrive_alternative w file_id out s = Some (Ret false, s2)
        /\ files s2 out = Some 10000).
Proof.
  repeat split.
  - intros w file_id out s r1 r2 token total_size H1 Ht H2 Hc Hl Hz Hx Hn.
    destruct (gdrive_clean_transfer w file_id out s r1 r2 token total_size
                H1 Ht H2 Hc Hl Hz Hx) as [s1 [Hf [Hw E]]].
    exists s1. rewrite Hn in *. auto.
  - intros w self s s1 Hk Hu Hd Hf.
    now rewrite (run_after_download w self s s1 10000 Hk Hu Hd Hf).
  - intros w file_id out s stderr Hp Hg.
    unfold download_gdrive_alternative, run_pip, run_gdown, path_exists, getsize.
    unfold_monad. simpl in Hg |- *. rewrite Hp. simpl. rewrite Hg. simpl.
    rewrite String.eqb_refl. simpl. rewrite String.eqb_refl.
    eexists. split; [reflexivity|]. simpl. now rewrite String.eqb_refl.
Qed.

(** The three checks on one file of 10000 bytes. *)
Lemma size_boundary_inconsistent_witness :
  let w := Examples.drive_world Examples.cookie_page [4000; 6000] 10000 0 in
  (exists s1,
      files s1 "video.mp4" = Some 10000
      /\ wrote_only "video.mp4"
           [EvGet base_url [("id", "F1-x")];
            EvGet base_url (second_params "F1-x" (Some "COOKIE"))] initial_state s1
      /\ download_from_gdrive w "F1-x" "video.mp4" initial_state = Some (Ret true, s1))
  /\ (exists s2,
      download_gdrive_alternative w "F1-x" "video.mp4" initial_state
        = Some (Ret false, s2)
      /\ files s2 "video.mp4" = Some 10000).
Proof.
  intros w. split.
  - apply (proj1 size_boundary_inconsistent w "F1-x" "video.mp4" initial_state
             Examples.cookie_page (Examples.media [4000; 6000]) (Some "COOKIE") 0);
      reflexivity.
  - apply (proj2 (proj2 size_boundary_inconsistent) w "F1-x" "video.mp4"
             initial_state ""); reflexivity.
Defined.
